(** * DISCORD-AUTO-CHAT: the API client and the status panel

    A shallow embedding of two source files of the bot:

    - [apiClient.js]: the six wrappers around [axios] that talk to the
      Discord REST API and to the Google generative-language API;
    - [ui.js] and [index.js]: the status payload assembled on every
      [statusUpdate] event and the text that [TUI.formatStatusContent]
      renders from it.

    Conventions of the embedding.

    - A JavaScript string is a [string]; one [ascii] stands for one code
      unit.  [substring], [slice] and [trim] follow ECMAScript on indices
      and on the white space that exists among these code units.
    - A JavaScript [Map] or an object used as a dictionary is a [gmap];
      an object whose enumeration order is observed ([Object.values(..).find])
      is a list of entries in enumeration order.
    - Time stamps are integers (milliseconds since the epoch) in [Z].
    - An [async] function is a computation in the monad [M]: it reads the
      replies of the network from an oracle, appends the requests it issues
      and the lines it writes to the console to a trace, and completes
      either normally (the promise is fulfilled) or abruptly (the promise
      is rejected). *)

From Stdlib Require Import ZArith QArith String Ascii List DecimalString Lia.
From stdpp Require Import gmap strings list.
Close Scope Q_scope.
Local Open Scope string_scope.

(** ** JavaScript strings *)

Module JSString.

Definition nl : string := String (ascii_of_nat 10) EmptyString.
Definition dquote : string := String (ascii_of_nat 34) EmptyString.

(** [ToIntegerOrInfinity] followed by the clamp to [0, len] that
    [String.prototype.substring] applies to both of its arguments. *)
Definition clamp (len : nat) (i : Z) : nat :=
  Z.to_nat (Z.min (Z.max i 0) (Z.of_nat len)).

(** [s.substring(start, end)]; [stop = None] is the call with one argument.
    The two clamped positions are swapped when they come out of order. *)
Definition js_substring (s : string) (start : Z) (stop : option Z) : string :=
  let len := String.length s in
  let finalStart := clamp len start in
  let finalEnd := match stop with
                  | Some e => clamp len e
                  | None => len
                  end in
  let from := Nat.min finalStart finalEnd in
  let to := Nat.max finalStart finalEnd in
  substring from (to - from) s.

(** [s.slice(start)]: a negative start counts from the end. *)
Definition js_slice (s : string) (start : Z) : string :=
  let len := String.length s in
  let from := if (start <? 0)%Z
              then Z.to_nat (Z.max (Z.of_nat len + start) 0)
              else Nat.min (Z.to_nat start) len in
  substring from (len - from) s.

(** The white space and line terminators of ECMAScript among the code
    units an [ascii] can hold: TAB, LF, VT, FF, CR, SP and NBSP. *)
Definition is_js_space (c : ascii) : bool :=
  let n := nat_of_ascii c in
  ((n =? 9) || (n =? 10) || (n =? 11) || (n =? 12) || (n =? 13)
   || (n =? 32) || (n =? 160))%nat.

Fixpoint trim_start (s : string) : string :=
  match s with
  | EmptyString => EmptyString
  | String c r => if is_js_space c then trim_start r else s
  end.

(** Drops the trailing white space: a character is kept when it is not
    white space or when something is kept after it. *)
Fixpoint trim_end (s : string) : string :=
  match s with
  | EmptyString => EmptyString
  | String c r =>
      match trim_end r with
      | EmptyString => if is_js_space c then EmptyString
                       else String c EmptyString
      | r' => String c r'
      end
  end.

(** [s.trim()] *)
Definition js_trim (s : string) : string := trim_end (trim_start s).

(** The decimal rendering of a count and of an integer, as a template
    literal interpolates them. *)
Definition dec (n : nat) : string := NilEmpty.string_of_uint (Nat.to_uint n).
Definition dec_Z (z : Z) : string := NilZero.string_of_int (Z.to_int z).

(** [a.forEach((x, index) => ...)] over a state that the callback updates. *)
Fixpoint forEach_from {A St : Type} (f : St -> A -> nat -> St)
    (index : nat) (l : list A) (st : St) : St :=
  match l with
  | [] => st
  | x :: r => forEach_from f (S index) r (f st x index)
  end.

Definition forEach {A St : Type} (f : St -> A -> nat -> St) (l : list A) (st : St) : St :=
  forEach_from f 0 l st.

End JSString.

Import JSString.

(** ** The status panel: [ui.js] and the [statusUpdate] wiring of [index.js] *)

Module UI.

(** One value of [botInfos]: the identity fetched for a token. *)
Record bot_info := { tokenRef : string; fullUsername : string }.

(** One value of [channelDetails]: [name] and [error] may be missing. *)
Record channel_detail := { name : option string; error : option string }.

(** The object that [index.js] hands to [ui.updateStatus].  [botInfos] is
    kept as its entries in enumeration order, since [Object.values] and
    [find] observe that order. *)
Record status_data := {
  botInfos : list (string * bot_info);
  channelDetails : gmap string channel_detail;
  discordTokens : list string;
  googleApiKeys : list string;
  channelIds : list string;
  rateLimitedKeys : gmap string Z;
  isRunning : bool
}.

(** Truthiness of a string and of a number. *)
Definition truthy_string (s : string) : bool :=
  match s with EmptyString => false | _ => true end.

Definition truthy_number (z : Z) : bool := negb (z =? 0)%Z.

(** [`${s.substring(0, 5)}...${s.substring(s.length - 4)}`], the expression
    bound to [masked] for a token and for a key. *)
Definition masked (s : string) : string :=
  js_substring s 0 (Some 5%Z) +:+ "..."
  +:+ js_substring s (Z.of_nat (String.length s) - 4) None.

(** [Object.values(botInfos).find(bInfo => bInfo.tokenRef === token)] *)
Definition findInfo (infos : list (string * bot_info)) (token : string)
  : option bot_info :=
  find (fun bInfo => String.eqb (tokenRef bInfo) token) (map snd infos).

(** The callback of [discordTokens.forEach]. *)
Definition renderToken (infos : list (string * bot_info))
    (content : string) (token : string) (index : nat) : string :=
  let info := findInfo infos token in
  let masked := masked token in
  content +:+ " T" +:+ dec (index + 1) +:+ ": " +:+ masked +:+ " "
  +:+ match info with
      | Some info => "({green-fg}" +:+ fullUsername info +:+ "{/green-fg})"
      | None => "({red-fg}X{/red-fg})"
      end
  +:+ nl.

(** [Math.ceil(ms / 1000 / 60)] of an integer number of milliseconds: the
    ceiling of the exact quotient, which the two floating-point divisions
    give for every difference of two time stamps. *)
Definition ceil_minutes (ms : Z) : Z := (- ((- ms) / 60000))%Z.

(** [expiry && expiry > Date.now()]: the clock is read only when the key
    has a truthy entry in [rateLimitedKeys]. *)
Definition limited_at (expiry : option Z) (now : Z) : bool :=
  match expiry with
  | Some e => truthy_number e && (now <? e)%Z
  | None => false
  end.

(** The callback of [googleApiKeys.forEach].  The state is the content
    and the number of readings of [Date.now()] taken so far; [clock n] is
    the n-th reading. *)
Definition renderKey (clock : nat -> Z) (rl : gmap string Z)
    (st : string * nat) (key : string) (index : nat) : string * nat :=
  let '(content, tick) := st in
  let masked := masked key in
  let expiry := rl !! key in
  let reads_clock := match expiry with
                     | Some e => truthy_number e
                     | None => false
                     end in
  let limited := limited_at expiry (clock tick) in
  let tick := if reads_clock then S tick else tick in
  let remaining :=
    match expiry with
    | Some e => if limited
                then " (~" +:+ dec_Z (ceil_minutes (e - clock tick)) +:+ "m)"
                else EmptyString
    | None => EmptyString
    end in
  let tick := if limited then S tick else tick in
  (content +:+ " K" +:+ dec (index + 1) +:+ ": " +:+ masked +:+ " "
   +:+ (if limited
        then "{red-fg}Limited" +:+ remaining +:+ "{/red-fg}"
        else "{green-fg}Active{/green-fg}")
   +:+ nl,
   tick).

(** The callback of [channelIds.forEach]. *)
Definition renderChannel (details : gmap string channel_detail)
    (content : string) (id : string) (index : nat) : string :=
  let details := details !! id in
  let shortId := if (6 <? String.length id)%nat
                 then "..." +:+ js_slice id (-6) else id in
  let name := match details with
              | Some d => match name d with
                          | Some n => if truthy_string n then n else "..."
                          | None => "..."
                          end
              | None => "..."
              end in
  let status := match details with
                | Some d => match error d with
                            | Some e => if truthy_string e
                                        then "{red-fg}Fail{/red-fg}"
                                        else "{green-fg}OK{/green-fg}"
                            | None => "{green-fg}OK{/green-fg}"
                            end
                | None => "{yellow-fg}Init{/yellow-fg}"
                end in
  content +:+ " " +:+ shortId +:+ ": " +:+ js_substring name 0 (Some 15%Z)
  +:+ " (" +:+ status +:+ ")" +:+ nl.

Definition controls : string :=
  nl +:+ "{bold}---------------------------------{/bold}" +:+ nl
  +:+ "{bold}Controls:{/}" +:+ nl
  +:+ " {yellow-fg}Ctrl+C{/yellow-fg}, {yellow-fg}Q{/yellow-fg}, {yellow-fg}Esc{/yellow-fg}: Exit" +:+ nl
  +:+ " {yellow-fg}Tab{/yellow-fg}/{yellow-fg}S-Tab{/yellow-fg}    : Cycle Focus" +:+ nl
  +:+ " ({yellow-fg}Yellow Border{/yellow-fg} = Active Pane)" +:+ nl
  +:+ " {yellow-fg}Arrows{/yellow-fg}/{yellow-fg}PgUp/Dn{/yellow-fg}: Scroll Focused Pane".

(** [TUI.formatStatusContent(statusData)] *)
Definition formatStatusContent (clock : nat -> Z) (statusData : status_data)
  : string :=
  let content :=
    "{bold}Status:{/} "
    +:+ (if isRunning statusData then "{green-fg}Running{/green-fg}"
         else "{red-fg}Stopped{/red-fg}") +:+ nl in
  (* Discord Tokens *)
  let loadedBotsCount := length (botInfos statusData) in
  let content :=
    content +:+ nl +:+ "{bold}Discord Tokens (" +:+ dec loadedBotsCount
    +:+ "/" +:+ dec (length (discordTokens statusData)) +:+ " loaded):{/}"
    +:+ nl in
  let content :=
    if (0 <? length (discordTokens statusData))%nat
    then forEach (renderToken (botInfos statusData))
           (discordTokens statusData) content
    else content +:+ " (None)" +:+ nl in
  (* Google API Keys *)
  let content :=
    content +:+ nl +:+ "{bold}Google API Keys ("
    +:+ dec (length (googleApiKeys statusData)) +:+ "):{/}" +:+ nl in
  let content :=
    if (0 <? length (googleApiKeys statusData))%nat
    then fst (forEach (renderKey clock (rateLimitedKeys statusData))
                (googleApiKeys statusData) (content, 0%nat))
    else content +:+ " (None)" +:+ nl in
  (* Monitored Channels *)
  let content :=
    content +:+ nl +:+ "{bold}Channels ("
    +:+ dec (length (channelIds statusData)) +:+ "):{/}" +:+ nl in
  let content :=
    if (0 <? length (channelIds statusData))%nat
    then forEach (renderChannel (channelDetails statusData))
           (channelIds statusData) content
    else content +:+ " (None)" +:+ nl in
  (* Instructions *)
  content +:+ controls.

(** The part of the [TUI] object that [updateStatus] writes. *)
Record tui := { statusBox_content : string; renders : nat }.

(** [TUI.updateStatus(statusData)] *)
Definition updateStatus (clock : nat -> Z) (ui : tui) (statusData : status_data)
  : tui :=
  let formattedContent := formatStatusContent clock statusData in
  {| statusBox_content := formattedContent; renders := S (renders ui) |}.

(** The [statusUpdate] handler of [index.js].  The class [BotLogic] is not
    part of the sources at hand: its state and its seven getters are
    parameters. *)
Section StatusUpdate.
Variable BotLogic : Type.
Variable getBotInfos : BotLogic -> list (string * bot_info).
Variable getChannelDetails : BotLogic -> gmap string channel_detail.
Variable getDiscordTokens : BotLogic -> list string.
Variable getGoogleApiKeys : BotLogic -> list string.
Variable getChannelIds : BotLogic -> list string.
Variable getRateLimitedKeys : BotLogic -> gmap string Z.
Variable isRunningStatus : BotLogic -> bool.

(** The object literal bound to [statusData]. *)
Definition statusData_of (botLogic : BotLogic) : status_data :=
  {| botInfos := getBotInfos botLogic;
     channelDetails := getChannelDetails botLogic;
     discordTokens := getDiscordTokens botLogic;
     googleApiKeys := getGoogleApiKeys botLogic;
     channelIds := getChannelIds botLogic;
     rateLimitedKeys := getRateLimitedKeys botLogic;
     isRunning := isRunningStatus botLogic |}.

(** [botLogic.on('statusUpdate', () => { ...; ui.updateStatus(statusData) })] *)
Definition on_statusUpdate (clock : nat -> Z) (ui : tui) (botLogic : BotLogic)
  : tui :=
  let statusData := statusData_of botLogic in
  updateStatus clock ui statusData.
End StatusUpdate.

(** Modelled from the spec: [markRateLimited(key, now, retryAfter)] of the
    key pool, which lives in the absent [BotLogic]; section 4.1 of the
    specification: it sets cooldown-until to [now + retryAfter].  The retry
    is taken in the unit of the time stamps. *)
Definition markRateLimited (key : string) (now retryAfter : Z)
    (rl : gmap string Z) : gmap string Z :=
  <[key := (now + retryAfter)%Z]> rl.

(** A key is available when [formatStatusContent] does not find it
    [limited]: the test of the sources under the name that the
    specification gives to it. *)
Definition isKeyAvailable (rl : gmap string Z) (key : string) (now : Z) : bool :=
  negb (limited_at (rl !! key) now).

(** *** Notions used to state the properties of the panel *)

(** The text that the loop over the tokens adds to the content. *)
Definition tokens_section (statusData : status_data) : string :=
  forEach (renderToken (botInfos statusData)) (discordTokens statusData)
    EmptyString.

(** A token has a resolved identity when [find] returns a record for it. *)
Definition resolved (infos : list (string * bot_info)) (token : string) : bool :=
  match findInfo infos token with
  | Some _ => true
  | None => false
  end.

(** What the panel takes from the tokens and from the keys: the masked
    form with the user name found, and the masked form with the entry of
    [rateLimitedKeys]. *)
Definition token_view (statusData : status_data) : list (string * option string) :=
  map (fun token => (masked token,
                     option_map fullUsername (findInfo (botInfos statusData) token)))
      (discordTokens statusData).

Definition key_view (statusData : status_data) : list (string * option Z) :=
  map (fun key => (masked key, rateLimitedKeys statusData !! key))
      (googleApiKeys statusData).

End UI.

(** ** JavaScript values, as [JSON.parse] and the client build them *)

Module JSValue.

(** An array keeps the own properties that an assignment may add to it. *)
#[warning="-register-all"] Inductive value :=
| VUndefined
| VNull
| VBool (b : bool)
| VNum (q : Q)
| VStr (s : string)
| VArr (elems : list value) (own : list (string * value))
| VObj (fields : list (string * value)).

(** What the language leaves to conversions that the client never relies
    on: [ToString] of a number, an array or an object, and the comparison
    [v > 0] of a string, an array or an object. *)
Record js_runtime := {
  to_string_other : value -> string;
  gt0_other : value -> bool
}.

Definition truthy (v : value) : bool :=
  match v with
  | VUndefined | VNull => false
  | VBool b => b
  | VNum q => negb (Qeq_bool q 0)
  | VStr s => UI.truthy_string s
  | VArr _ _ | VObj _ => true
  end.

Definition nullish (v : value) : bool :=
  match v with
  | VUndefined | VNull => true
  | _ => false
  end.

Definition type_name (v : value) : string :=
  match v with VNull => "null" | _ => "undefined" end.

Definition obj_get (fields : list (string * value)) (k : string) : value :=
  match find (fun kv => String.eqb (fst kv) k) fields with
  | Some kv => snd kv
  | None => VUndefined
  end.

(** [o[k] = x] on the own properties: an existing key keeps its place, a
    new key goes last. *)
Fixpoint obj_set (fields : list (string * value)) (k : string) (x : value)
  : list (string * value) :=
  match fields with
  | [] => [(k, x)]
  | kv :: r => if String.eqb (fst kv) k then (k, x) :: r
               else kv :: obj_set r k x
  end.

(** The position that the property key [k] names, if it is the canonical
    decimal form of an index below [len]. *)
Definition index_of_key (len : nat) (k : string) : option nat :=
  find (fun n => String.eqb (dec n) k) (seq 0 len).

Definition char_at (s : string) (n : nat) : value :=
  match String.get n s with
  | Some c => VStr (String c EmptyString)
  | None => VUndefined
  end.

(** [v.k] for a [v] that is neither [undefined] nor [null].  The client
    reads only the names [candidates], [content], [parts], [text],
    [promptFeedback], [blockReason], [guild_id], [name], [retry_after]
    and [length]; of these, only [length] exists on a prototype chain. *)
Definition prop (v : value) (k : string) : value :=
  match v with
  | VObj fields => obj_get fields k
  | VArr elems own =>
      if String.eqb k "length" then VNum (inject_Z (Z.of_nat (length elems)))
      else match index_of_key (length elems) k with
           | Some n => nth n elems VUndefined
           | None => obj_get own k
           end
  | VStr s =>
      if String.eqb k "length" then VNum (inject_Z (Z.of_nat (String.length s)))
      else match index_of_key (String.length s) k with
           | Some n => char_at s n
           | None => VUndefined
           end
  | _ => VUndefined
  end.

(** [v[n]] for a [v] that is neither [undefined] nor [null]. *)
Definition at_index (v : value) (n : nat) : value :=
  match v with
  | VArr elems _ => nth n elems VUndefined
  | VStr s => char_at s n
  | VObj fields => obj_get fields (dec n)
  | _ => VUndefined
  end.

(** [v.k = x] in sloppy mode, for a [v] that is neither [undefined] nor
    [null]: an object or an array gets the property, a primitive drops
    the assignment silently.  [k] is not an index and not [length]. *)
Definition assign (v : value) (k : string) (x : value) : value :=
  match v with
  | VObj fields => VObj (obj_set fields k x)
  | VArr elems own => VArr elems (obj_set own k x)
  | _ => v
  end.

(** [`${v}`] *)
Definition to_string (rt : js_runtime) (v : value) : string :=
  match v with
  | VStr s => s
  | VUndefined => "undefined"
  | VNull => "null"
  | VBool true => "true"
  | VBool false => "false"
  | _ => to_string_other rt v
  end.

(** [v > 0] *)
Definition gt0 (rt : js_runtime) (v : value) : bool :=
  match v with
  | VNum q => negb (Qle_bool q 0)
  | VBool b => b
  | VUndefined | VNull => false
  | _ => gt0_other rt v
  end.

End JSValue.

Import JSValue.

(** ** Promises that talk to the network and to the console *)

Module Effects.

Record http_response := { status : Z; data : value }.

(** What the network does with one request: an answer with a status
    code, or none at all (refused connection, time-out, malformed
    request).  The text is the message of the error that [axios] builds. *)
Inductive exchange :=
| NoResponse (message : string)
| Responded (r : http_response).

(** The value that a rejected promise carries and that [catch] binds:
    an [AxiosError] (with [response] when the server answered) or a
    [TypeError] (never with [response]). *)
Record js_error := { err_response : option http_response; err_message : string }.

Inductive http_method := GET | POST | DELETE.

Record request := {
  method : http_method;
  url : string;
  headers : list (string * string);
  body : option value
}.

Inductive console_level := LError | LWarn.

Inductive event :=
| Http (r : request)
| Console (level : console_level) (msg : string) (args : list value).

(** The n-th request issued gets the reply [net n request]. *)
Definition network := nat -> request -> exchange.

Inductive completion (A : Type) :=
| Normal (a : A)
| Abrupt (e : js_error).
Arguments Normal {A} a.
Arguments Abrupt {A} e.

Definition M (A : Type) : Type :=
  network -> list event -> completion A * list event.

Definition ret {A} (a : A) : M A := fun _ tr => (Normal a, tr).

Definition bind {A B} (m : M A) (k : A -> M B) : M B :=
  fun net tr =>
    match m net tr with
    | (Normal a, tr') => k a net tr'
    | (Abrupt e, tr') => (Abrupt e, tr')
    end.

Definition throw {A} (e : js_error) : M A := fun _ tr => (Abrupt e, tr).

(** [try { body } catch (error) { handler }] *)
Definition try_catch {A} (body : M A) (handler : js_error -> M A) : M A :=
  fun net tr =>
    match body net tr with
    | (Normal a, tr') => (Normal a, tr')
    | (Abrupt e, tr') => handler e net tr'
    end.

Definition console (level : console_level) (msg : string) (args : list value)
  : M unit :=
  fun _ tr => (Normal tt, (tr ++ [Console level msg args])%list).

Definition is_http (e : event) : bool :=
  match e with Http _ => true | Console _ _ _ => false end.

Definition requests_so_far (tr : list event) : nat :=
  length (filter (fun e => is_http e = true) tr).

(** [validateStatus] of [axios], left at its default. *)
Definition validateStatus (status : Z) : bool :=
  ((200 <=? status) && (status <? 300))%Z.

(** [await axios(request)]: the promise is fulfilled on a status that
    [validateStatus] accepts and rejected otherwise. *)
Definition axios (req : request) : M http_response :=
  fun net tr =>
    let tr' := (tr ++ [Http req])%list in
    match net (requests_so_far tr) req with
    | Responded r =>
        if validateStatus (status r) then (Normal r, tr')
        else (Abrupt {| err_response := Some r;
                        err_message := "Request failed with status code "
                                       +:+ dec_Z (status r) |}, tr')
    | NoResponse message =>
        (Abrupt {| err_response := None; err_message := message |}, tr')
    end.

Definition TypeError {A} (message : string) : M A :=
  throw {| err_response := None; err_message := message |}.

(** [v.k], which throws on [undefined] and [null]. *)
Definition get_prop (v : value) (k : string) : M value :=
  if nullish v
  then TypeError ("Cannot read properties of " +:+ type_name v
                  +:+ " (reading '" +:+ k +:+ "')")
  else ret (prop v k).

(** [v[n]] *)
Definition get_index (v : value) (n : nat) : M value :=
  if nullish v
  then TypeError ("Cannot read properties of " +:+ type_name v
                  +:+ " (reading '" +:+ dec n +:+ "')")
  else ret (at_index v n).

(** [v?.k] *)
Definition opt_prop (v : value) (k : string) : value :=
  if nullish v then VUndefined else prop v k.


(** [v.trim()]: only a string has the method. *)
Definition call_trim (v : value) : M value :=
  match v with
  | VStr s => ret (VStr (js_trim s))
  | VUndefined | VNull =>
      TypeError ("Cannot read properties of " +:+ type_name v
                 +:+ " (reading 'trim')")
  | _ => TypeError "trim is not a function"
  end.

(** [a && b] on conditions whose evaluation may throw. *)
Definition andM (a b : M bool) : M bool :=
  bind a (fun x => if x then b else ret false).

Definition run {A} (m : M A) (net : network) : completion A * list event :=
  m net [].

Definition result {A} (m : M A) (net : network) : completion A := fst (run m net).
Definition trace {A} (m : M A) (net : network) : list event := snd (run m net).

(** *** A notion used in the proofs about promises *)


End Effects.

Import Effects.

Notation "x <- m ;; k" := (bind m (fun x => k))
  (at level 100, m at level 99, k at level 200, right associativity).
Notation "m ;;; k" := (bind m (fun _ => k))
  (at level 100, k at level 200, right associativity).

(** ** [apiClient.js] *)

Module ApiClient.

Definition DISCORD_API_BASE : string := "https://discord.com/api/v9".
Definition GOOGLE_API_BASE : string :=
  "https://generativelanguage.googleapis.com/v1beta/models/gemini-1.5-flash-latest:generateContent".

Definition createDiscordHeaders (token : string) : list (string * string) :=
  [("Authorization", token);
   ("Content-Type", "application/json");
   ("User-Agent", "DiscordBot (Node.js, 1.0)")].

Definition createGoogleHeaders : list (string * string) :=
  [("Content-Type", "application/json")].

(** [axios.get(url, { headers })], [axios.post(url, data, { headers })] and
    [axios.delete(url, { headers })] *)
Definition axios_get (url : string) (headers : list (string * string)) :=
  axios {| method := GET; url := url; headers := headers; body := None |}.

Definition axios_post (url : string) (payload : value)
    (headers : list (string * string)) :=
  axios {| method := POST; url := url; headers := headers; body := Some payload |}.

Definition axios_delete (url : string) (headers : list (string * string)) :=
  axios {| method := DELETE; url := url; headers := headers; body := None |}.

(** [error.response?.data] *)
Definition response_data (error : js_error) : value :=
  match err_response error with
  | Some r => data r
  | None => VUndefined
  end.

(** [error.response?.data || error.message] *)
Definition error_detail (error : js_error) : value :=
  if truthy (response_data error) then response_data error
  else VStr (err_message error).

Definition fetchMessages (channelId token : string) : M value :=
  let url := DISCORD_API_BASE +:+ "/channels/" +:+ channelId +:+ "/messages?limit=5" in
  let headers := createDiscordHeaders token in
  try_catch
    (response <- axios_get url headers ;;
     ret (data response))
    (fun error =>
       console LError
         ("[API Error] Failed to fetch messages for channel " +:+ channelId +:+ ":")
         [error_detail error] ;;;
       ret VNull).

(** The object literal [{ content }], extended with [message_reference]
    when [replyToMessageId] is truthy.  [None] is the omitted or [null]
    argument. *)
Definition send_payload (content : string) (replyToMessageId : option string)
  : value :=
  let payload := VObj [("content", VStr content)] in
  match replyToMessageId with
  | Some id =>
      if UI.truthy_string id
      then assign payload "message_reference" (VObj [("message_id", VStr id)])
      else payload
  | None => payload
  end.

Definition sendMessage (rt : js_runtime) (channelId content token : string)
    (replyToMessageId : option string) : M value :=
  let url := DISCORD_API_BASE +:+ "/channels/" +:+ channelId +:+ "/messages" in
  let headers := createDiscordHeaders token in
  let payload := send_payload content replyToMessageId in
  try_catch
    (response <- axios_post url payload headers ;;
     ret (data response))
    (fun error =>
       console LError
         ("[API Error] Failed to send message to channel " +:+ channelId +:+ ":")
         [error_detail error] ;;;
       let retry_after := opt_prop (response_data error) "retry_after" in
       (if truthy retry_after
        then console LWarn
               ("[API Warn] Hit rate limit/slow mode in channel " +:+ channelId
                +:+ ". Retry after: " +:+ to_string rt retry_after +:+ "s") []
        else ret tt) ;;;
       ret VNull).

Definition deleteMessage (channelId messageId token : string) : M value :=
  let url := DISCORD_API_BASE +:+ "/channels/" +:+ channelId
             +:+ "/messages/" +:+ messageId in
  let headers := createDiscordHeaders token in
  try_catch
    (axios_delete url headers ;;;
     ret (VBool true))
    (fun error =>
       console LError
         ("[API Error] Failed to delete message " +:+ messageId
          +:+ " in channel " +:+ channelId +:+ ":")
         [error_detail error] ;;;
       ret (VBool false)).

Definition getBotInfo (token : string) : M value :=
  let url := DISCORD_API_BASE +:+ "/users/@me" in
  let headers := createDiscordHeaders token in
  try_catch
    (response <- axios_get url headers ;;
     ret (data response))
    (fun error =>
       console LError
         ("[API Error] Failed to fetch bot info for token "
          +:+ js_substring token 0 (Some 5%Z) +:+ "...:")
         [error_detail error] ;;;
       ret VNull).


(** The request body [data] of [generateGeminiReply]. *)
Definition gemini_request (refinedPrompt : string) : value :=
  VObj [("contents",
         VArr [VObj [("parts", VArr [VObj [("text", VStr refinedPrompt)]] [])]] [])].

(** The condition of the [if] on the response: each conjunct reads its path
    from [response.data] again and may throw on the way. *)
Definition has_candidate_text (rt : js_runtime) (d : value) : M bool :=
  andM (candidates <- get_prop d "candidates" ;;
        ret (truthy candidates))
 (andM (candidates <- get_prop d "candidates" ;;
        len <- get_prop candidates "length" ;;
        ret (gt0 rt len))
 (andM (candidates <- get_prop d "candidates" ;;
        c0 <- get_index candidates 0 ;;
        content <- get_prop c0 "content" ;;
        ret (truthy content))
 (andM (candidates <- get_prop d "candidates" ;;
        c0 <- get_index candidates 0 ;;
        content <- get_prop c0 "content" ;;
        parts <- get_prop content "parts" ;;
        ret (truthy parts))
       (candidates <- get_prop d "candidates" ;;
        c0 <- get_index candidates 0 ;;
        content <- get_prop c0 "content" ;;
        parts <- get_prop content "parts" ;;
        len <- get_prop parts "length" ;;
        ret (gt0 rt len))))).

(** [response.data.candidates[0].content.parts[0].text] *)
Definition candidate_text (d : value) : M value :=
  candidates <- get_prop d "candidates" ;;
  c0 <- get_index candidates 0 ;;
  content <- get_prop c0 "content" ;;
  parts <- get_prop content "parts" ;;
  p0 <- get_index parts 0 ;;
  get_prop p0 "text".

Definition RATE_LIMITED : value := VStr "RATE_LIMITED".

(** [promptLanguage = None] is the omitted argument, which takes the
    default ['id']. *)
Definition generateGeminiReply (rt : js_runtime) (userMessage apiKey : string)
    (promptLanguage : option string) : M value :=
  let promptLanguage := match promptLanguage with
                        | Some l => l
                        | None => "id"
                        end in
  let url := GOOGLE_API_BASE +:+ "?key=" +:+ apiKey in
  let headers := createGoogleHeaders in
  let request_with (basePrompt : string) : M value :=
    let refinedPrompt :=
      basePrompt +:+ nl +:+ nl
      +:+ "Buatlah menjadi 1 kalimat menggunakan bahasa sehari-hari manusia." in
    let data_ := gemini_request refinedPrompt in
    try_catch
      (response <- axios_post url data_ headers ;;
       usable <- has_candidate_text rt (data response) ;;
       if (usable : bool)
       then
         text <- candidate_text (data response) ;;
         call_trim text
       else
         console LWarn
           "[API Warn] Gemini response structure unexpected or content missing/blocked:"
           [data response] ;;;
         promptFeedback <- get_prop (data response) "promptFeedback" ;;
         let blockReason := opt_prop promptFeedback "blockReason" in
         (if truthy blockReason
          then console LWarn
                 ("[API Warn] Gemini prompt blocked due to: "
                  +:+ to_string rt blockReason) []
          else ret tt) ;;;
         ret VNull)
      (fun error =>
         match err_response error with
         | Some r =>
             if (status r =? 429)%Z
             then
               console LWarn
                 ("[API Warn] Google API key rate limited (429). Key: "
                  +:+ js_substring apiKey 0 (Some 5%Z) +:+ "...") [] ;;;
               ret RATE_LIMITED
             else
               console LError "[API Error] Failed to generate Gemini reply:"
                 [error_detail error] ;;;
               ret VNull
         | None =>
             console LError "[API Error] Failed to generate Gemini reply:"
               [error_detail error] ;;;
             ret VNull
         end) in
  if String.eqb promptLanguage "id"
  then request_with ("Balas pesan berikut dalam bahasa Indonesia: " +:+ dquote
                     +:+ userMessage +:+ dquote)
  else if String.eqb promptLanguage "en"
  then request_with ("Reply to the following message in English: " +:+ dquote
                     +:+ userMessage +:+ dquote)
  else
    console LError ("[API Error] Invalid prompt language: " +:+ promptLanguage) [] ;;;
    ret VNull.

(** *** Notions used to state the properties of the client *)

(** The response with which the promise of [axios] is fulfilled, if it is. *)
Definition settled (x : exchange) : option http_response :=
  match x with
  | Responded r => if validateStatus (status r) then Some r else None
  | NoResponse _ => None
  end.

(** The server answered with the status 429. *)
Definition answered_429 (x : exchange) : Prop :=
  exists r : http_response, x = Responded r /\ status r = 429%Z.




End ApiClient.

(** ** Sample inputs *)

Module Samples.

Import UI ApiClient.

Definition seal_token : string := "MTA4NzY1NDMyMTAxMjM0NTY3OA.Gh7xQz".
Definition other_token : string := "OTk5ODg4Nzc3NjY2NTU1NDQ0.Xy12Ab".

Definition seal_info : bot_info :=
  {| tokenRef := seal_token; fullUsername := "seal#0001" |}.

(** Two distinct tokens; only the first has a record. *)
Definition two_tokens : status_data :=
  {| botInfos := [("1087654321012345678", seal_info)];
     channelDetails := ∅;
     discordTokens := [seal_token; other_token];
     googleApiKeys := [];
     channelIds := [];
     rateLimitedKeys := ∅;
     isRunning := true |}.

(** The same token configured twice. *)
Definition same_token_twice : status_data :=
  {| botInfos := [("1087654321012345678", seal_info)];
     channelDetails := ∅;
     discordTokens := [seal_token; seal_token];
     googleApiKeys := [];
     channelIds := [];
     rateLimitedKeys := ∅;
     isRunning := true |}.

(** Two states that agree on everything but the middle of the token and
    of the key. *)
Definition hidden_a : status_data :=
  {| botInfos := [("1087654321012345678", seal_info)];
     channelDetails := ∅;
     discordTokens := [seal_token];
     googleApiKeys := ["AIzaSyD4-first-generation-key-0001"];
     channelIds := [];
     rateLimitedKeys := ∅;
     isRunning := true |}.

Definition hidden_b : status_data :=
  {| botInfos := [("1087654321012345678",
                   {| tokenRef := "MTA4N-another-middle-part-7xQz";
                      fullUsername := "seal#0001" |})];
     channelDetails := ∅;
     discordTokens := ["MTA4N-another-middle-part-7xQz"];
     googleApiKeys := ["AIzaS-some-other-key-0001"];
     channelIds := [];
     rateLimitedKeys := ∅;
     isRunning := true |}.

(** A runtime for the samples: its conversions are never reached there. *)
Definition sample_runtime : js_runtime :=
  {| to_string_other := fun _ => "[object Object]";
     gt0_other := fun _ => false |}.



(** The connection is refused. *)
Definition unreachable : network :=
  fun _ _ => NoResponse "connect ECONNREFUSED".

(** The generation service answers 429. *)
Definition quota_exceeded : network :=
  fun _ _ => Responded {| status := 429;
                          data := VObj [("error", VObj [("code", VNum (429 # 1))])] |}.

(** The generation service answers 200 with one candidate of the given
    text. *)
Definition generated (text : value) : network :=
  fun _ _ =>
    Responded {| status := 200;
                 data := VObj [("candidates",
                          VArr [VObj [("content",
                                  VObj [("parts", VArr [VObj [("text", text)]] [])])]]
                               [])] |}.



End Samples.

Import Samples.

(** ** Further notions about the client *)

Module ClientNotions.

(** The error with which the promise of [axios] is rejected, for an
    exchange that does not fulfil it. *)
Definition rejection (x : exchange) : js_error :=
  match x with
  | Responded r =>
      {| err_response := Some r;
         err_message := "Request failed with status code " +:+ dec_Z (status r) |}
  | NoResponse message =>
      {| err_response := None; err_message := message |}
  end.

(** [m] issues no request: it extends the trace, and only with lines on
    the console. *)
Definition silent {A : Type} (m : M A) : Prop :=
  forall (net : network) (tr : list event),
    exists log : list event,
      snd (m net tr) = (tr ++ log)%list /\ requests_so_far log = 0.

(** A string of white space only, and the first and the last code unit of
    a string. *)
Fixpoint all_space (s : string) : bool :=
  match s with
  | EmptyString => true
  | String c r => is_js_space c && all_space r
  end.

Definition first_unit (s : string) : option ascii :=
  match s with
  | EmptyString => None
  | String c _ => Some c
  end.

Fixpoint last_unit (s : string) : option ascii :=
  match s with
  | EmptyString => None
  | String c EmptyString => Some c
  | String _ r => last_unit r
  end.

(** A string that neither starts nor ends with white space. *)
Definition tight (s : string) : Prop :=
  (forall c, first_unit s = Some c -> is_js_space c = false) /\
  (forall c, last_unit s = Some c -> is_js_space c = false).

(** The instruction that opens the prompt for a language. *)
Definition instruction (promptLanguage : option string) : string :=
  match promptLanguage with
  | Some "en" => "Reply to the following message in English: "
  | _ => "Balas pesan berikut dalam bahasa Indonesia: "
  end.

(** The request of [generateGeminiReply] for a valid language. *)
Definition generation_request (userMessage apiKey : string)
    (promptLanguage : option string) : request :=
  {| method := POST;
     url := ApiClient.GOOGLE_API_BASE +:+ "?key=" +:+ apiKey;
     headers := [("Content-Type", "application/json")];
     body := Some (ApiClient.gemini_request
               ((instruction promptLanguage +:+ dquote +:+ userMessage +:+ dquote)
                +:+ nl +:+ nl
                +:+ "Buatlah menjadi 1 kalimat menggunakan bahasa sehari-hari manusia.")) |}.







End ClientNotions.

Import ClientNotions.

(** ** Further sample inputs *)

Module MoreSamples.


End MoreSamples.

Import MoreSamples.

(** ** The [TUI] object: its calls on [blessed], its handlers *)

Module Screen.

Import UI.

(** The three panes that [initComponents] pushes on [scrollablePanes]. *)
Inductive pane := MainLogBox | SuccessLogBox | StatusBox.

Inductive widget := BannerBox | Pane (p : pane).

(** The calls of [ui.js] on the objects of [blessed].  The option objects
    passed at creation (geometry, colours, labels) are left out; of a
    listener, only the event it is registered for is kept. *)
Inductive blessed_call :=
| CreateScreen
| CreateWidget (w : widget)
| Log (box : pane) (message : string)
| SetContent (content : string)
| Focus (p : pane)
| Render
| Destroy
| On (event : string)
| Emit (event : string)
| KeyBinding (keys : list string)
| EnableMouse.

(** What the object does to the outside: a call on [blessed], or a line on
    the console with the message of the error it reports, if any. *)
Inductive output :=
| Call (c : blessed_call)
| ConsoleError (label : string) (error : string) (rest : list string)
| ConsoleLog (message : string).

(** The fields of a [TUI] that its methods read and write.  [screen] is
    [false] once [this.screen] is [null]; [currentFocusIndex] is [None] when
    it holds [NaN]. *)
Record tui_fields := {
  screen : bool;
  scrollablePanes : list pane;
  currentFocusIndex : option Z
}.

(** The n-th call on [blessed] throws an error with this message, or
    returns. *)
Definition library := nat -> option string.

Definition U (A : Type) : Type :=
  library -> tui_fields * list output -> completion A * (tui_fields * list output).

Definition uret {A} (a : A) : U A := fun _ st => (Normal a, st).

Definition ubind {A B} (m : U A) (k : A -> U B) : U B :=
  fun lib st =>
    match m lib st with
    | (Normal a, st') => k a lib st'
    | (Abrupt e, st') => (Abrupt e, st')
    end.

Definition uthrow {A} (message : string) : U A :=
  fun _ st => (Abrupt {| err_response := None; err_message := message |}, st).

(** [try { body } catch (e) { handler }] *)
Definition utry {A} (body : U A) (handler : js_error -> U A) : U A :=
  fun lib st =>
    match body lib st with
    | (Normal a, st') => (Normal a, st')
    | (Abrupt e, st') => handler e lib st'
    end.

Definition get_fields : U tui_fields := fun _ st => (Normal (fst st), st).

Definition put_fields (ui : tui_fields) : U unit :=
  fun _ st => (Normal tt, (ui, snd st)).

Definition is_call (o : output) : bool :=
  match o with Call _ => true | _ => false end.

Definition calls_so_far (out : list output) : nat :=
  length (List.filter is_call out).

(** A call on an object of [blessed]: it is attempted, and then returns or
    throws as the library decides. *)
Definition call (c : blessed_call) : U unit :=
  fun lib st =>
    let st' := (fst st, (snd st ++ [Call c])%list) in
    match lib (calls_so_far (snd st)) with
    | Some message =>
        (Abrupt {| err_response := None; err_message := message |}, st')
    | None => (Normal tt, st')
    end.

Definition console_error (label : string) (e : js_error) (rest : list string)
  : U unit :=
  fun _ st => (Normal tt, (fst st, (snd st ++ [ConsoleError label (err_message e) rest])%list)).

Definition console_log (message : string) : U unit :=
  fun _ st => (Normal tt, (fst st, (snd st ++ [ConsoleLog message])%list)).

Notation "x <~ m ;; k" := (ubind m (fun x => k))
  (at level 100, m at level 99, k at level 200, right associativity).
Notation "m ;;~ k" := (ubind m (fun _ => k))
  (at level 100, k at level 200, right associativity).

(** [this.screen.f(...)]: a [TypeError] once [this.screen] is [null]. *)
Definition screen_call (c : blessed_call) (method : string) : U unit :=
  ui <~ get_fields ;;
  if screen ui then call c
  else uthrow ("Cannot read properties of null (reading '" +:+ method +:+ "')").

(** [a % n] on integers: the remainder has the sign of [a], and it is [NaN]
    for [n = 0]. *)
Definition js_rem (a n : Z) : option Z :=
  if (n =? 0)%Z then None else Some (Z.rem a n).

(** [this.scrollablePanes[this.currentFocusIndex]] *)
Definition pane_at (panes : list pane) (index : option Z) : option pane :=
  match index with
  | Some i => if (0 <=? i)%Z then nth_error panes (Z.to_nat i) else None
  | None => None
  end.

(** [this.scrollablePanes[this.currentFocusIndex].focus()] *)
Definition focus_current : U unit :=
  ui <~ get_fields ;;
  match pane_at (scrollablePanes ui) (currentFocusIndex ui) with
  | Some p => call (Focus p)
  | None => uthrow "Cannot read properties of undefined (reading 'focus')"
  end.

Definition set_index (index : option Z) : U unit :=
  ui <~ get_fields ;;
  put_fields {| screen := screen ui;
                scrollablePanes := scrollablePanes ui;
                currentFocusIndex := index |}.

(** The handler of the key [tab]. *)
Definition key_tab : U unit :=
  ui <~ get_fields ;;
  let length := Z.of_nat (length (scrollablePanes ui)) in
  set_index (match currentFocusIndex ui with
             | Some i => js_rem (i + 1) length
             | None => None
             end) ;;~
  focus_current ;;~
  screen_call Render "render".

(** The handler of the key [S-tab]. *)
Definition key_shift_tab : U unit :=
  ui <~ get_fields ;;
  let length := Z.of_nat (length (scrollablePanes ui)) in
  set_index (match currentFocusIndex ui with
             | Some i => js_rem (i - 1 + length) length
             | None => None
             end) ;;~
  focus_current ;;~
  screen_call Render "render".

(** [TUI.render()] *)
Definition render : U unit :=
  ui <~ get_fields ;;
  if screen ui then call Render else uret tt.

(** [TUI.destroy()] *)
Definition destroy : U unit :=
  ui <~ get_fields ;;
  if screen ui
  then
    call Destroy ;;~
    put_fields {| screen := false;
                  scrollablePanes := scrollablePanes ui;
                  currentFocusIndex := currentFocusIndex ui |} ;;~
    console_log "TUI Screen Destroyed."
  else uret tt.

(** [TUI.on(event, listener)] *)
Definition on (event : string) : U unit :=
  ui <~ get_fields ;;
  if screen ui then call (On event) else uret tt.

(** [TUI.emit(event, ...args)] *)
Definition emit (event : string) : U unit :=
  ui <~ get_fields ;;
  if screen ui then call (Emit event) else uret tt.

(** [TUI.addLog(level, message)] *)
Definition addLog (level message : string) : U unit :=
  utry
    ((if String.eqb level "SUCCESS"
      then call (Log SuccessLogBox message)
      else call (Log MainLogBox message)) ;;~
     screen_call Render "render")
    (fun e => console_error "TUI Log Error:" e ["Original Msg:"; message]).

(** [TUI.updateStatus(statusData)], with its calls on [blessed] and its
    [try]; the content is the one of [UI.updateStatus]. *)
Definition updateStatus (clock : nat -> Z) (statusData : status_data) : U unit :=
  let formattedContent := formatStatusContent clock statusData in
  utry
    (call (SetContent formattedContent) ;;~
     screen_call Render "render")
    (fun e => console_error "TUI Status Update Error:" e []).

(** [this.scrollablePanes.push(p)] *)
Definition push_pane (p : pane) : U unit :=
  ui <~ get_fields ;;
  put_fields {| screen := screen ui;
                scrollablePanes := (scrollablePanes ui ++ [p])%list;
                currentFocusIndex := currentFocusIndex ui |}.

(** [TUI.initComponents()] *)
Definition initComponents : U unit :=
  call (CreateWidget BannerBox) ;;~
  call (CreateWidget (Pane MainLogBox)) ;;~
  push_pane MainLogBox ;;~
  call (CreateWidget (Pane SuccessLogBox)) ;;~
  push_pane SuccessLogBox ;;~
  call (CreateWidget (Pane StatusBox)) ;;~
  push_pane StatusBox.

(** [TUI.attachHandlers()] *)
Definition attachHandlers : U unit :=
  on "log" ;;~
  on "statusUpdate" ;;~
  screen_call (On "resize") "on" ;;~
  screen_call (KeyBinding ["C-c"; "q"; "escape"]) "key" ;;~
  screen_call (KeyBinding ["tab"]) "key" ;;~
  screen_call (KeyBinding ["S-tab"]) "key" ;;~
  screen_call EnableMouse "enableMouse".

(** [new TUI()]: the fields before the constructor runs do not matter. *)
Definition constructor : U unit :=
  call CreateScreen ;;~
  put_fields {| screen := true;
                scrollablePanes := [];
                currentFocusIndex := Some 0%Z |} ;;~
  initComponents ;;~
  attachHandlers ;;~
  ui <~ get_fields ;;
  (if (0 <? length (scrollablePanes ui))%nat
   then match nth_error (scrollablePanes ui) 0 with
        | Some p => call (Focus p)
        | None => uthrow "Cannot read properties of undefined (reading 'focus')"
        end
   else uret tt) ;;~
  render.

(** The events that [attachHandlers] listens to, with their handlers. *)
Inductive screen_event :=
| EvLog (level message : string)
| EvStatusUpdate (statusData : status_data)
| EvResize
| EvQuit
| EvTab
| EvShiftTab.

Definition handle (clock : nat -> Z) (ev : screen_event) : U unit :=
  match ev with
  | EvLog level message => addLog level message
  | EvStatusUpdate statusData => updateStatus clock statusData
  | EvResize => screen_call Render "render"
  | EvQuit => emit "shutdown"
  | EvTab => key_tab
  | EvShiftTab => key_shift_tab
  end.

(** The handlers of a sequence of events, run one after the other; an error
    that a handler lets escape ends the run, as the handler of
    [uncaughtException] in [index.js] exits the process.  [clocks n] is the
    clock that the handler of the n-th event reads. *)
Fixpoint handle_all (clocks : nat -> nat -> Z) (n : nat)
    (evs : list screen_event) : U unit :=
  match evs with
  | [] => uret tt
  | ev :: rest => handle (clocks n) ev ;;~ handle_all clocks (S n) rest
  end.

(** A library whose calls all return. *)
Definition healthy : library := fun _ => None.

Definition fields_after {A} (m : U A) (lib : library) (ui : tui_fields)
  : tui_fields := fst (snd (m lib (ui, []))).

Definition outputs_of {A} (m : U A) (lib : library) (ui : tui_fields)
  : list output := snd (snd (m lib (ui, []))).

Definition completion_of {A} (m : U A) (lib : library) (ui : tui_fields)
  : completion A := fst (m lib (ui, [])).

(** *** Notions used to state the properties of the object *)

(** The focus index designates one of the panes. *)
Definition focus_ok (ui : tui_fields) : Prop :=
  exists i : Z,
    currentFocusIndex ui = Some i /\
    (0 <= i < Z.of_nat (length (scrollablePanes ui)))%Z.

Definition pane_eqb (a b : pane) : bool :=
  match a, b with
  | MainLogBox, MainLogBox | SuccessLogBox, SuccessLogBox
  | StatusBox, StatusBox => true
  | _, _ => false
  end.

(** The box that [addLog] picks for a level. *)
Definition box_of (level : string) : pane :=
  if String.eqb level "SUCCESS" then SuccessLogBox else MainLogBox.

(** The messages handed to [box.log], in order. *)
Definition logged (box : pane) (out : list output) : list string :=
  flat_map (fun o => match o with
                     | Call (Log b message) =>
                         if pane_eqb b box then [message] else []
                     | _ => []
                     end) out.

(** [m] leaves the fields of the object as they are. *)
Definition keeps_fields {A} (m : U A) : Prop :=
  forall (lib : library) (ui : tui_fields) (out : list output),
    fst (snd (m lib (ui, out))) = ui.

(** The fields before [new TUI()]. *)
Definition blank : tui_fields :=
  {| screen := false; scrollablePanes := []; currentFocusIndex := None |}.

End Screen.

(** * Properties *)

(** ** Strings *)

Section StringFacts.

Lemma app_cons (c : ascii) (s t : string) :
  String c s +:+ t = String c (s +:+ t).
Proof. reflexivity. Qed.

Lemma app_empty_l (s : string) : EmptyString +:+ s = s.
Proof. reflexivity. Qed.

Lemma length_app (s1 s2 : string) :
  String.length (s1 +:+ s2) = String.length s1 + String.length s2.
Proof.
  induction s1 as [|c s1 IH]; [reflexivity|].
  rewrite app_cons. simpl. now rewrite IH.
Qed.

Lemma app_assoc_str (s1 s2 s3 : string) :
  (s1 +:+ s2) +:+ s3 = s1 +:+ (s2 +:+ s3).
Proof.
  induction s1 as [|c s1 IH]; [reflexivity|].
  rewrite !app_cons. now rewrite IH.
Qed.

Lemma app_empty_r (s : string) : s +:+ EmptyString = s.
Proof.
  induction s as [|c s IH]; [reflexivity|]. rewrite app_cons. now rewrite IH.
Qed.

Lemma substring_prefix (p r : string) :
  substring 0 (String.length p) (p +:+ r) = p.
Proof.
  induction p as [|c p IH].
  - rewrite app_empty_l. now destruct r.
  - rewrite app_cons. simpl. now rewrite IH.
Qed.


Lemma substring_all (q : string) : substring 0 (String.length q) q = q.
Proof. rewrite <- (app_empty_r q) at 2. apply substring_prefix. Qed.


Lemma length_substring (s : string) (n m : nat) :
  n + m <= String.length s -> String.length (substring n m s) = m.
Proof.
  revert n m. induction s as [|c s IH]; intros n m H; simpl in *.
  - destruct n, m; simpl; lia.
  - destruct n as [|n].
    + destruct m as [|m]; simpl; [reflexivity|]. rewrite IH; lia.
    + apply IH. lia.
Qed.


End StringFacts.

(** ** The mask of a secret *)

Section Mask.

Import UI.




Example masked_token : masked "MTA4NzY1NDMyMTAxMjM0NTY3OA.Gh7xQz" = "MTA4N...7xQz".
Proof. reflexivity. Qed.

Example masked_short : masked "abc" = "abc...abc".
Proof. reflexivity. Qed.


End Mask.

(** ** Availability of a generation key *)

Section KeyAvailability.

Import UI.

Lemma limited_at_spec (expiry : option Z) (now : Z) :
  (0 <= now)%Z ->
  limited_at expiry now = false <->
  expiry = None \/ exists until : Z, expiry = Some until /\ (until <= now)%Z.
Proof.
  intros Hnow. destruct expiry as [e|]; simpl; [|tauto].
  unfold truthy_number.
  destruct (Z.eqb_spec e 0), (Z.ltb_spec now e); simpl; split;
    try (intros _; right; exists e; split; [reflexivity | lia]);
    try discriminate; try reflexivity.
  intros [Hnone | (u & Hu & Hle)]; [discriminate | injection Hu as ->; lia].
Qed.

(** The line of a key: [Active] when the key is not limited at the reading
    of the clock, [Limited] with the remaining minutes otherwise. *)
Lemma renderKey_line (clock : nat -> Z) (rl : gmap string Z)
    (content : string) (tick : nat) (key : string) (index : nat) :
  exists label : string,
    fst (renderKey clock rl (content, tick) key index)
    = content +:+ " K" +:+ dec (index + 1) +:+ ": " +:+ masked key +:+ " "
      +:+ label +:+ nl /\
    (isKeyAvailable rl key (clock tick) = true ->
     label = "{green-fg}Active{/green-fg}") /\
    (isKeyAvailable rl key (clock tick) = false ->
     exists remaining : string,
       label = "{red-fg}Limited" +:+ remaining +:+ "{/red-fg}").
Proof.
  unfold isKeyAvailable, renderKey.
  destruct (limited_at (rl !! key) (clock tick)) eqn:Hlim.
  - eexists; split; [reflexivity|]. split; [discriminate|].
    intros _. eexists. reflexivity.
  - eexists; split; [reflexivity|]. split; [reflexivity | discriminate].
Qed.

(** C5. A key is available, and its line reads [Active] rather than
    [Limited], exactly when its cooldown-until is absent or not later than
    the current time; a key marked rate-limited at [now] with a retry of [r]
    is unavailable at [now] and available from [now + r] on. *)
Theorem key_availability (rl : gmap string Z) (key : string) (now r : Z) :
  (0 <= now)%Z -> (0 < r)%Z ->
  (isKeyAvailable rl key now = true <->
   rl !! key = None \/ exists until : Z, rl !! key = Some until /\ (until <= now)%Z) /\
  (forall (clock : nat -> Z) (tick : nat) (content : string) (index : nat),
     clock tick = now ->
     exists label : string,
       fst (renderKey clock rl (content, tick) key index)
       = content +:+ " K" +:+ dec (index + 1) +:+ ": " +:+ masked key +:+ " "
         +:+ label +:+ nl /\
       (isKeyAvailable rl key now = true ->
        label = "{green-fg}Active{/green-fg}") /\
       (isKeyAvailable rl key now = false ->
        exists remaining : string,
          label = "{red-fg}Limited" +:+ remaining +:+ "{/red-fg}")) /\
  isKeyAvailable (markRateLimited key now r rl) key now = false /\
  (forall t : Z, (now + r <= t)%Z ->
     isKeyAvailable (markRateLimited key now r rl) key t = true).
Proof.
  intros Hnow Hr. repeat split.
  - unfold isKeyAvailable. intros H. apply limited_at_spec; [assumption|].
    now apply negb_true_iff.
  - unfold isKeyAvailable. intros H. apply negb_true_iff.
    now apply limited_at_spec.
  - intros clock tick content index <-. apply renderKey_line.
  - unfold isKeyAvailable, markRateLimited. rewrite lookup_insert_eq. simpl.
    unfold truthy_number.
    destruct (Z.eqb_spec (now + r) 0), (Z.ltb_spec now (now + r)); simpl; lia || reflexivity.
  - intros t Ht. unfold isKeyAvailable, markRateLimited.
    rewrite lookup_insert_eq. apply negb_true_iff.
    apply limited_at_spec; [lia|]. right. eexists. split; [reflexivity | assumption].
Qed.

(** The theorem for a key that was marked at 1000 ms with a retry of
    30000 ms, seen at that time. *)
Lemma key_availability_witness :
  isKeyAvailable (markRateLimited "AIzaSyD-key-one" 1000 30000 ∅)
    "AIzaSyD-key-one" 1000 = false /\
  isKeyAvailable (markRateLimited "AIzaSyD-key-one" 1000 30000 ∅)
    "AIzaSyD-key-one" 31000 = true.
Proof.
  destruct (key_availability ∅ "AIzaSyD-key-one" 1000 30000) as (_ & _ & H1 & H2);
    [lia | lia |].
  split; [exact H1 | apply H2; lia].
Defined.

End KeyAvailability.

(** ** Tokens and identities in the panel *)

Section TokenDisplay.

Import UI.

Lemma forEach_from_app {A St : Type} (f : St -> A -> nat -> St)
    (i : nat) (l1 l2 : list A) (st : St) :
  forEach_from f i (l1 ++ l2)%list st
  = forEach_from f (i + length l1) l2 (forEach_from f i l1 st).
Proof.
  revert i st. induction l1 as [|x l1 IH]; intros i st; simpl.
  - now rewrite Nat.add_0_r.
  - rewrite IH. now replace (S i + length l1) with (i + S (length l1)) by lia.
Qed.

(** A loop whose callback only appends text appends the text of the loop
    run on the empty content. *)
Lemma forEach_from_appends {A : Type} (f : string -> A -> nat -> string)
    (g : A -> nat -> string) :
  (forall c x i, f c x i = c +:+ g x i) ->
  forall (l : list A) (i : nat) (c : string),
    forEach_from f i l c = c +:+ forEach_from f i l EmptyString.
Proof.
  intros Hf. induction l as [|x l IH]; intros i c; simpl.
  - now rewrite app_empty_r.
  - rewrite IH, (IH _ (f EmptyString x i)), !Hf, app_empty_l.
    now rewrite app_assoc_str.
Qed.

Lemma renderToken_appends (infos : list (string * bot_info))
    (c token : string) (i : nat) :
  renderToken infos c token i = c +:+ renderToken infos EmptyString token i.
Proof. reflexivity. Qed.

Lemma renderToken_unfold (infos : list (string * bot_info))
    (c token : string) (i : nat) :
  renderToken infos c token i
  = c +:+ " T" +:+ dec (i + 1) +:+ ": " +:+ masked token +:+ " "
    +:+ match findInfo infos token with
        | Some info => "({green-fg}" +:+ fullUsername info +:+ "{/green-fg})"
        | None => "({red-fg}X{/red-fg})"
        end
    +:+ nl.
Proof. reflexivity. Qed.

Lemma renderChannel_appends (details : gmap string channel_detail)
    (c id : string) (i : nat) :
  renderChannel details c id i = c +:+ renderChannel details EmptyString id i.
Proof. reflexivity. Qed.

Lemma findInfo_Some (infos : list (string * bot_info)) (token : string)
    (info : bot_info) :
  findInfo infos token = Some info ->
  exists key : string, (key, info) ∈ infos /\ tokenRef info = token.
Proof.
  unfold findInfo. intros H. apply find_some in H as [Hin Heq].
  apply String.eqb_eq in Heq. apply in_map_iff in Hin as ((k & i) & Hi & Hin).
  simpl in Hi. subst i. exists k. split; [now apply list_elem_of_In | assumption].
Qed.

Lemma findInfo_None (infos : list (string * bot_info)) (token : string) :
  findInfo infos token = None ->
  forall (key : string) (info : bot_info),
    (key, info) ∈ infos -> tokenRef info <> token.
Proof.
  unfold findInfo. intros H key info Hin Heq.
  assert (Hne : String.eqb (tokenRef info) token = false).
  { apply (find_none _ _ H info). apply in_map_iff.
    exists (key, info). split; [reflexivity | now apply list_elem_of_In]. }
  apply String.eqb_eq in Heq. congruence.
Qed.

Lemma resolved_iff (infos : list (string * bot_info)) (token : string) :
  resolved infos token = true <->
  exists (key : string) (info : bot_info),
    (key, info) ∈ infos /\ tokenRef info = token.
Proof.
  unfold resolved. destruct (findInfo infos token) as [info|] eqn:Hf.
  - split; [intros _ | reflexivity].
    destruct (findInfo_Some _ _ _ Hf) as (k & Hin & Heq). eauto.
  - split; [discriminate|]. intros (k & info & Hin & Heq).
    now destruct (findInfo_None _ _ Hf k info Hin).
Qed.

(** With pairwise distinct tokens and records that refer to pairwise
    distinct configured tokens, the tokens with an identity are as many as
    the records. *)
Lemma resolved_count (infos : list (string * bot_info)) (tokens : list string) :
  NoDup tokens ->
  NoDup (map (fun kv => tokenRef (snd kv)) infos) ->
  (forall key info, (key, info) ∈ infos -> tokenRef info ∈ tokens) ->
  length (List.filter (resolved infos) tokens) = length infos.
Proof.
  intros Htok Hrefs Hincl.
  rewrite <- (length_map (fun kv => tokenRef (snd kv)) infos).
  apply Permutation_length, NoDup_Permutation; [|assumption|].
  - apply NoDup_ListNoDup, List.NoDup_filter. now apply NoDup_ListNoDup.
  - intros t. rewrite !list_elem_of_In, filter_In, in_map_iff, resolved_iff.
    rewrite <- list_elem_of_In. split.
    + intros (_ & k & info & Hin & Heq). exists (k, info).
      split; [assumption | now apply list_elem_of_In].
    + intros ((k & info) & Heq & Hin). apply list_elem_of_In in Hin.
      simpl in Heq. subst t. split; [eapply Hincl; eassumption | eauto].
Qed.

Lemma renderKey_appends (clock : nat -> Z) (rl : gmap string Z)
    (c : string) (t : nat) (key : string) (i : nat) :
  renderKey clock rl (c, t) key i
  = (c +:+ fst (renderKey clock rl (EmptyString, t) key i),
     snd (renderKey clock rl (EmptyString, t) key i)).
Proof. reflexivity. Qed.

Lemma forEach_from_renderKey (clock : nat -> Z) (rl : gmap string Z)
    (l : list string) (i : nat) (c : string) (t : nat) :
  forEach_from (renderKey clock rl) i l (c, t)
  = (c +:+ fst (forEach_from (renderKey clock rl) i l (EmptyString, t)),
     snd (forEach_from (renderKey clock rl) i l (EmptyString, t))).
Proof.
  revert i c t. induction l as [|k l IH]; intros i c t; cbn [forEach_from].
  - cbn [fst snd]. now rewrite app_empty_r.
  - rewrite renderKey_appends, IH.
    destruct (renderKey clock rl (EmptyString, t) k i) as [line t'] eqn:Hline.
    cbn [fst snd]. rewrite (IH _ line t'). cbn [fst snd].
    now rewrite app_assoc_str.
Qed.

(** The panel starts with the status line and the header of the tokens,
    which shows the number of records of [botInfos] as the loaded count;
    the lines of the tokens follow. *)
Lemma formatStatusContent_tokens (clock : nat -> Z) (sd : status_data) :
  exists rest : string,
    formatStatusContent clock sd
    = "{bold}Status:{/} "
      +:+ (if isRunning sd then "{green-fg}Running{/green-fg}"
           else "{red-fg}Stopped{/red-fg}") +:+ nl
      +:+ nl +:+ "{bold}Discord Tokens (" +:+ dec (length (botInfos sd))
      +:+ "/" +:+ dec (length (discordTokens sd)) +:+ " loaded):{/}" +:+ nl
      +:+ (if (0 <? length (discordTokens sd))%nat then tokens_section sd
           else " (None)" +:+ nl)
      +:+ rest.
Proof.
  unfold formatStatusContent, tokens_section, forEach. cbv zeta.
  rewrite (forEach_from_appends _ _ (renderToken_appends (botInfos sd))).
  rewrite (forEach_from_appends _ _ (renderChannel_appends (channelDetails sd))).
  rewrite forEach_from_renderKey. simpl fst.
  destruct (0 <? length (discordTokens sd))%nat,
           (0 <? length (googleApiKeys sd))%nat,
           (0 <? length (channelIds sd))%nat;
    rewrite !app_assoc_str; eexists; reflexivity.
Qed.

End TokenDisplay.

Section TokenClaims.

Import UI.

(** C8 (amended). Each configured token has its own line in the panel; the
    line shows the user name of a record of [botInfos] exactly when some
    record refers to the token and the marker [X] otherwise, and the text
    before and after it is the rendering of the other tokens.  The loaded
    count in the header is the number of records of [botInfos]; it is the
    number of tokens with an identity when the tokens are pairwise distinct
    and the records refer to pairwise distinct configured tokens. *)
Theorem token_identity_display (clock : nat -> Z) (sd : status_data) :
  (exists rest : string,
     formatStatusContent clock sd
     = "{bold}Status:{/} "
       +:+ (if isRunning sd then "{green-fg}Running{/green-fg}"
            else "{red-fg}Stopped{/red-fg}") +:+ nl
       +:+ nl +:+ "{bold}Discord Tokens (" +:+ dec (length (botInfos sd))
       +:+ "/" +:+ dec (length (discordTokens sd)) +:+ " loaded):{/}" +:+ nl
       +:+ (if (0 <? length (discordTokens sd))%nat then tokens_section sd
            else " (None)" +:+ nl)
       +:+ rest) /\
  (forall (before : list string) (token : string) (after : list string),
     discordTokens sd = (before ++ token :: after)%list ->
     exists marker : string,
       tokens_section sd
       = forEach (renderToken (botInfos sd)) before EmptyString
         +:+ " T" +:+ dec (length before + 1) +:+ ": " +:+ masked token +:+ " "
         +:+ marker +:+ nl
         +:+ forEach_from (renderToken (botInfos sd)) (S (length before)) after
               EmptyString /\
       (resolved (botInfos sd) token = true ->
        exists (key : string) (info : bot_info),
          (key, info) ∈ botInfos sd /\ tokenRef info = token /\
          marker = "({green-fg}" +:+ fullUsername info +:+ "{/green-fg})") /\
       (resolved (botInfos sd) token = false ->
        marker = "({red-fg}X{/red-fg})")) /\
  (forall token : string,
     resolved (botInfos sd) token = true <->
     exists (key : string) (info : bot_info),
       (key, info) ∈ botInfos sd /\ tokenRef info = token) /\
  (NoDup (discordTokens sd) ->
   NoDup (map (fun kv => tokenRef (snd kv)) (botInfos sd)) ->
   (forall key info, (key, info) ∈ botInfos sd -> tokenRef info ∈ discordTokens sd) ->
   length (List.filter (resolved (botInfos sd)) (discordTokens sd))
   = length (botInfos sd)).
Proof.
  split; [apply formatStatusContent_tokens|].
  split; [|split; [intros token; apply resolved_iff | apply resolved_count]].
  intros before token after Htokens.
  unfold tokens_section, forEach. rewrite Htokens, forEach_from_app.
  cbn [forEach_from Nat.add].
  rewrite (forEach_from_appends _ _ (renderToken_appends (botInfos sd)) after).
  rewrite (renderToken_unfold (botInfos sd) _ token (length before)).
  unfold resolved.
  destruct (findInfo (botInfos sd) token) as [info|] eqn:Hfind.
  - exists ("({green-fg}" +:+ fullUsername info +:+ "{/green-fg})").
    split; [now rewrite !app_assoc_str|]. split; [|discriminate].
    intros _. destruct (findInfo_Some _ _ _ Hfind) as (k & Hin & Heq). eauto.
  - exists "({red-fg}X{/red-fg})".
    split; [now rewrite !app_assoc_str|]. split; [discriminate | reflexivity].
Qed.

(** The theorem at a panel of two distinct tokens, the second of which has
    a record. *)
Lemma token_identity_display_witness :
  length (List.filter (resolved (botInfos two_tokens)) (discordTokens two_tokens))
  = length (botInfos two_tokens).
Proof.
  apply (token_identity_display (fun _ => 0%Z) two_tokens).
  - compute_done.
  - compute_done.
  - intros key info Hin. apply list_elem_of_In in Hin.
    destruct Hin as [Heq | []]. injection Heq as _ <-.
    apply list_elem_of_In. left. reflexivity.
Defined.

(** C8, as it is stated, fails when a token is configured twice: the one
    record gives both lines a user name while the header counts 1 of 2. *)
Lemma loaded_count_counterexample :
  length (List.filter (resolved (botInfos same_token_twice))
            (discordTokens same_token_twice)) = 2 /\
  formatStatusContent (fun _ => 0%Z) same_token_twice
  = "{bold}Status:{/} {green-fg}Running{/green-fg}" +:+ nl
    +:+ nl +:+ "{bold}Discord Tokens (1/2 loaded):{/}" +:+ nl
    +:+ " T1: MTA4N...7xQz ({green-fg}seal#0001{/green-fg})" +:+ nl
    +:+ " T2: MTA4N...7xQz ({green-fg}seal#0001{/green-fg})" +:+ nl
    +:+ nl +:+ "{bold}Google API Keys (0):{/}" +:+ nl
    +:+ " (None)" +:+ nl
    +:+ nl +:+ "{bold}Channels (0):{/}" +:+ nl
    +:+ " (None)" +:+ nl
    +:+ controls.
Proof. split; reflexivity. Qed.

End TokenClaims.

(** ** Secrets on the way to the panel *)

Section Redaction.

Import UI.

Lemma renderToken_view (infos infos' : list (string * bot_info))
    (t t' c : string) (i : nat) :
  masked t = masked t' ->
  option_map fullUsername (findInfo infos t)
  = option_map fullUsername (findInfo infos' t') ->
  renderToken infos c t i = renderToken infos' c t' i.
Proof.
  intros Hm Hu. rewrite !renderToken_unfold, Hm.
  destruct (findInfo infos t), (findInfo infos' t'); simpl in Hu;
    try discriminate; [injection Hu as -> |]; reflexivity.
Qed.

Lemma tokens_loop_view (infos infos' : list (string * bot_info))
    (l l' : list string) (i : nat) (c : string) :
  map (fun t => (masked t, option_map fullUsername (findInfo infos t))) l
  = map (fun t => (masked t, option_map fullUsername (findInfo infos' t))) l' ->
  forEach_from (renderToken infos) i l c = forEach_from (renderToken infos') i l' c.
Proof.
  revert l' i c. induction l as [|t l IH]; intros [|t' l'] i c Hv;
    try discriminate; [reflexivity|].
  injection Hv as Hm Hu Hrest. cbn [forEach_from].
  rewrite (renderToken_view infos infos' t t' c i Hm Hu). now apply IH.
Qed.

Lemma renderKey_view (clock : nat -> Z) (rl rl' : gmap string Z)
    (k k' : string) (st : string * nat) (i : nat) :
  masked k = masked k' -> rl !! k = rl' !! k' ->
  renderKey clock rl st k i = renderKey clock rl' st k' i.
Proof. intros Hm Hl. unfold renderKey. now rewrite Hm, Hl. Qed.

Lemma keys_loop_view (clock : nat -> Z) (rl rl' : gmap string Z)
    (l l' : list string) (i : nat) (st : string * nat) :
  map (fun k => (masked k, rl !! k)) l = map (fun k => (masked k, rl' !! k)) l' ->
  forEach_from (renderKey clock rl) i l st
  = forEach_from (renderKey clock rl') i l' st.
Proof.
  revert l' i st. induction l as [|k l IH]; intros [|k' l'] i st Hv;
    try discriminate; [reflexivity|].
  injection Hv as Hm Hl Hrest. cbn [forEach_from].
  rewrite (renderKey_view clock rl rl' k k' st i Hm Hl). now apply IH.
Qed.

(** C1 (amended). The payload that the [statusUpdate] handler hands to the
    panel carries the tokens and the keys as the bot logic returns them;
    the masking happens inside the panel, when [updateStatus] renders the
    payload: the text put into the status box depends on the tokens and
    keys only through their masked forms, the user names found for them
    and the cooldown entries of the keys. *)
Theorem redaction_in_panel
    (BotLogic : Type)
    (getBotInfos : BotLogic -> list (string * bot_info))
    (getChannelDetails : BotLogic -> gmap string channel_detail)
    (getDiscordTokens : BotLogic -> list string)
    (getGoogleApiKeys : BotLogic -> list string)
    (getChannelIds : BotLogic -> list string)
    (getRateLimitedKeys : BotLogic -> gmap string Z)
    (isRunningStatus : BotLogic -> bool)
    (clock : nat -> Z) (ui : tui) (b b' : BotLogic) :
  let payload := statusData_of BotLogic getBotInfos getChannelDetails
                   getDiscordTokens getGoogleApiKeys getChannelIds
                   getRateLimitedKeys isRunningStatus in
  let handler := on_statusUpdate BotLogic getBotInfos getChannelDetails
                   getDiscordTokens getGoogleApiKeys getChannelIds
                   getRateLimitedKeys isRunningStatus in
  discordTokens (payload b) = getDiscordTokens b /\
  googleApiKeys (payload b) = getGoogleApiKeys b /\
  statusBox_content (handler clock ui b) = formatStatusContent clock (payload b) /\
  (token_view (payload b) = token_view (payload b') ->
   key_view (payload b) = key_view (payload b') ->
   length (getBotInfos b) = length (getBotInfos b') ->
   getChannelDetails b = getChannelDetails b' ->
   getChannelIds b = getChannelIds b' ->
   isRunningStatus b = isRunningStatus b' ->
   statusBox_content (handler clock ui b)
   = statusBox_content (handler clock ui b')).
Proof.
  cbv zeta. repeat split.
  unfold on_statusUpdate, updateStatus, statusData_of, token_view, key_view.
  cbn [statusBox_content botInfos discordTokens googleApiKeys rateLimitedKeys].
  intros Htok Hkey Hlen Hdet Hids Hrun.
  unfold formatStatusContent, forEach.
  cbn [botInfos channelDetails discordTokens googleApiKeys channelIds
       rateLimitedKeys isRunning].
  assert (Hlt : length (getDiscordTokens b) = length (getDiscordTokens b'))
    by (apply (f_equal (@length _)) in Htok; now rewrite !length_map in Htok).
  assert (Hlk : length (getGoogleApiKeys b) = length (getGoogleApiKeys b'))
    by (apply (f_equal (@length _)) in Hkey; now rewrite !length_map in Hkey).
  rewrite Hlen, Hlt, Hlk, Hdet, Hids, Hrun.
  rewrite (tokens_loop_view _ _ _ _ 0 _ Htok).
  now rewrite (keys_loop_view clock _ _ _ _ 0 _ Hkey).
Qed.

(** The theorem at two states of the bot logic whose tokens and keys differ
    in the middle only. *)
Lemma redaction_in_panel_witness :
  discordTokens hidden_a <> discordTokens hidden_b /\
  formatStatusContent (fun _ => 0%Z) hidden_a
  = formatStatusContent (fun _ => 0%Z) hidden_b.
Proof.
  split; [discriminate|].
  apply (redaction_in_panel status_data botInfos channelDetails discordTokens
           googleApiKeys channelIds rateLimitedKeys isRunning
           (fun _ => 0%Z) {| statusBox_content := EmptyString; renders := 0 |}
           hidden_a hidden_b); reflexivity.
Defined.

(** C1, as it is stated, fails: the payload handed to the panel holds the
    token and the key themselves, which differ from their masked forms. *)
Lemma payload_counterexample :
  let payload := statusData_of status_data botInfos channelDetails discordTokens
                   googleApiKeys channelIds rateLimitedKeys isRunning hidden_a in
  "MTA4NzY1NDMyMTAxMjM0NTY3OA.Gh7xQz" ∈ discordTokens payload /\
  "AIzaSyD4-first-generation-key-0001" ∈ googleApiKeys payload /\
  masked "MTA4NzY1NDMyMTAxMjM0NTY3OA.Gh7xQz" <> "MTA4NzY1NDMyMTAxMjM0NTY3OA.Gh7xQz" /\
  masked "AIzaSyD4-first-generation-key-0001" <> "AIzaSyD4-first-generation-key-0001".
Proof.
  cbv zeta. repeat split; try discriminate;
    apply list_elem_of_In; left; reflexivity.
Qed.

End Redaction.

(** ** Reasoning about promises *)

Section Promises.











Lemma bind_ret {A B : Type} (a : A) (k : A -> M B) : bind (ret a) k = k a.
Proof. reflexivity. Qed.

Lemma try_catch_unfold {A : Type} (body : M A) (handler : js_error -> M A)
    (net : network) (tr : list event) :
  try_catch body handler net tr
  = match body net tr with
    | (Normal a, tr') => (Normal a, tr')
    | (Abrupt e, tr') => handler e net tr'
    end.
Proof. reflexivity. Qed.

Lemma get_prop_defined (v : value) (k : string) :
  nullish v = false -> get_prop v k = ret (prop v k).
Proof. intros H. unfold get_prop. now rewrite H. Qed.


(** The first step of a [try] that starts with a request. *)
Lemma try_axios {A : Type} (req : request) (body : http_response -> M A)
    (handler : js_error -> M A) (net : network) (tr : list event) :
  try_catch (bind (axios req) body) handler net tr
  = match net (requests_so_far tr) req with
    | Responded r =>
        if validateStatus (status r)
        then try_catch (body r) handler net (tr ++ [Http req])%list
        else handler {| err_response := Some r;
                        err_message := "Request failed with status code "
                                       +:+ dec_Z (status r) |}
               net (tr ++ [Http req])%list
    | NoResponse message =>
        handler {| err_response := None; err_message := message |}
          net (tr ++ [Http req])%list
    end.
Proof.
  unfold try_catch, bind, axios.
  destruct (net (requests_so_far tr) req) as [msg | r]; [reflexivity|].
  destruct (validateStatus (status r)); reflexivity.
Qed.

End Promises.

(** ** The operations of the client, one by one *)

Section Operations.

Import ApiClient.

Variable rt : js_runtime.
Variable net : network.


Lemma sendMessage_run (channelId content token : string)
    (replyToMessageId : option string) :
  exists (req : request) (log : list event),
    method req = POST /\
    url req = DISCORD_API_BASE +:+ "/channels/" +:+ channelId +:+ "/messages" /\
    headers req = createDiscordHeaders token /\
    body req = Some (send_payload content replyToMessageId) /\
    run (sendMessage rt channelId content token replyToMessageId) net
    = (Normal match settled (net 0 req) with
              | Some response => data response
              | None => VNull
              end,
       Http req :: log).
Proof.
  exists {| method := POST;
            url := DISCORD_API_BASE +:+ "/channels/" +:+ channelId +:+ "/messages";
            headers := createDiscordHeaders token;
            body := Some (send_payload content replyToMessageId) |}.
  unfold run, sendMessage, axios_post, settled. cbv zeta.
  rewrite try_axios. change (requests_so_far []) with 0.
  destruct (net 0 _) as [msg | r1]; [|destruct (validateStatus (status r1))];
    unfold bind, console; cbn [app];
    try match goal with
        | |- context [if truthy ?v then _ else _] => destruct (truthy v)
        end;
    eexists; repeat split.
Qed.



End Operations.

Section ChannelInfo.

Import ApiClient.

Variable rt : js_runtime.
Variable net : network.


End ChannelInfo.

Section Generation.

Import ApiClient.

Variable rt : js_runtime.




End Generation.

(** ** The claims about the client *)

Section ClientClaims.

Import ApiClient.

Lemma generateGeminiReply_invalid (rt : js_runtime) (net : network)
    (userMessage apiKey promptLanguage : string) :
  promptLanguage <> "id" -> promptLanguage <> "en" ->
  run (generateGeminiReply rt userMessage apiKey (Some promptLanguage)) net
  = (Normal VNull,
     [Console LError ("[API Error] Invalid prompt language: " +:+ promptLanguage) []]).
Proof.
  intros Hid Hen. unfold run, generateGeminiReply.
  apply String.eqb_neq in Hid, Hen. now rewrite Hid, Hen.
Qed.

(** C9. For every prompt language other than ['en'] and ['id'],
    [generateGeminiReply] returns [null] and issues no request: its only
    effect is a line on the console; an omitted language is ['id']. *)
Theorem invalid_language_no_request (rt : js_runtime) (net : network)
    (userMessage apiKey promptLanguage : string) :
  promptLanguage <> "en" -> promptLanguage <> "id" ->
  result (generateGeminiReply rt userMessage apiKey (Some promptLanguage)) net
  = Normal VNull /\
  (forall req : request,
     Http req ∉ trace (generateGeminiReply rt userMessage apiKey
                         (Some promptLanguage)) net) /\
  generateGeminiReply rt userMessage apiKey None
  = generateGeminiReply rt userMessage apiKey (Some "id").
Proof.
  intros Hen Hid. unfold result, trace.
  rewrite (generateGeminiReply_invalid rt net _ _ _ Hid Hen). cbn [fst snd].
  repeat split. intros req Hin. apply list_elem_of_In in Hin.
  destruct Hin as [Heq | []]. discriminate.
Qed.

(** The theorem at the language ['fr'], on a network that would answer. *)
Lemma invalid_language_no_request_witness :
  result (generateGeminiReply sample_runtime "gm everyone"
            "AIzaSyD4-first-generation-key-0001" (Some "fr"))
    (generated (VStr "bonjour"))
  = Normal VNull.
Proof.
  apply (invalid_language_no_request sample_runtime (generated (VStr "bonjour"))
           "gm everyone" "AIzaSyD4-first-generation-key-0001" "fr");
    discriminate.
Defined.

Lemma truthy_string_spec (s : string) :
  UI.truthy_string s = true <-> s <> EmptyString.
Proof. destruct s; simpl; split; congruence. Qed.

(** C7 (amended). The payload that [sendMessage] posts always carries the
    given content; it carries a [message_reference] with the given
    [message_id] when a non-empty [replyToMessageId] is supplied, and the
    content alone when [replyToMessageId] is omitted, [null] or the empty
    string. *)
Theorem send_payload_reference (rt : js_runtime) (net : network)
    (channelId content token : string) (replyToMessageId : option string) :
  exists (req : request) (log : list event) (payload : value),
    trace (sendMessage rt channelId content token replyToMessageId) net
    = Http req :: log /\
    method req = POST /\
    url req = DISCORD_API_BASE +:+ "/channels/" +:+ channelId +:+ "/messages" /\
    body req = Some payload /\
    prop payload "content" = VStr content /\
    (forall id : string,
       replyToMessageId = Some id -> id <> EmptyString ->
       payload = VObj [("content", VStr content);
                       ("message_reference", VObj [("message_id", VStr id)])]) /\
    (replyToMessageId = None \/ replyToMessageId = Some EmptyString ->
     payload = VObj [("content", VStr content)]).
Proof.
  destruct (sendMessage_run rt net channelId content token replyToMessageId)
    as (req & log & Hm & Hu & _ & Hb & Hrun).
  exists req, log, (send_payload content replyToMessageId).
  unfold trace. rewrite Hrun. repeat split; try assumption.
  - unfold send_payload. destruct replyToMessageId as [id|]; [|reflexivity].
    destruct (UI.truthy_string id); reflexivity.
  - intros id -> Hid. unfold send_payload.
    apply truthy_string_spec in Hid. now rewrite Hid.
  - intros [-> | ->]; reflexivity.
Qed.

(** The theorem for a reply to the message 1100000000000000042. *)
Lemma send_payload_reference_witness :
  exists (req : request) (log : list event),
    trace (sendMessage sample_runtime "1100000000000000001" "gm" seal_token
             (Some "1100000000000000042")) unreachable
    = Http req :: log /\
    body req = Some (VObj [("content", VStr "gm");
                           ("message_reference",
                            VObj [("message_id", VStr "1100000000000000042")])]).
Proof.
  destruct (send_payload_reference sample_runtime unreachable
              "1100000000000000001" "gm" seal_token (Some "1100000000000000042"))
    as (req & log & payload & Htrace & _ & _ & Hbody & _ & Hreply & _).
  exists req, log. split; [exact Htrace|].
  rewrite Hbody, (Hreply _ eq_refl); [reflexivity | discriminate].
Defined.

(** C7, as it is stated, fails for the empty string: it is supplied and is
    not [null], and the payload posted has no [message_reference]. *)
Lemma empty_reply_counterexample :
  exists (req : request) (log : list event),
    trace (sendMessage sample_runtime "1100000000000000001" "gm" seal_token
             (Some EmptyString)) unreachable
    = Http req :: log /\
    body req = Some (VObj [("content", VStr "gm")]) /\
    prop (VObj [("content", VStr "gm")]) "message_reference" = VUndefined.
Proof. eexists. eexists. repeat split. Qed.




End ClientClaims.

Section Outcomes.

Import ApiClient.

Lemma not_429_when_accepted (r : http_response) :
  validateStatus (status r) = true -> (status r =? 429)%Z = false.
Proof. unfold validateStatus. intros H. apply Z.eqb_neq. lia. Qed.







End Outcomes.

Section Containment.

Import ApiClient.








End Containment.

(** * Further properties *)

(** ** The mask at every length *)

Section MaskEdges.

Import UI.

Lemma masked_general (s : string) :
  masked s
  = substring 0 (Nat.min 5 (String.length s)) s +:+ "..."
    +:+ substring (String.length s - Nat.min 4 (String.length s))
          (Nat.min 4 (String.length s)) s.
Proof.
  unfold masked, js_substring, clamp.
  set (n := String.length s).
  replace (Z.to_nat (Z.min (Z.max 0 0) (Z.of_nat n))) with 0 by lia.
  replace (Z.to_nat (Z.min (Z.max 5 0) (Z.of_nat n))) with (Nat.min 5 n) by lia.
  replace (Z.to_nat (Z.min (Z.max (Z.of_nat n - 4) 0) (Z.of_nat n)))
    with (n - Nat.min 4 n) by lia.
  rewrite Nat.min_0_l, Nat.max_0_l, Nat.sub_0_r.
  replace (Nat.min (n - Nat.min 4 n) n) with (n - Nat.min 4 n) by lia.
  replace (Nat.max (n - Nat.min 4 n) n - (n - Nat.min 4 n))
    with (Nat.min 4 n) by lia.
  reflexivity.
Qed.

Lemma app_inv_length (a b c d : string) :
  String.length a = String.length c -> a +:+ b = c +:+ d -> a = c /\ b = d.
Proof.
  revert c. induction a as [|x a IH]; intros [|y c] Hlen H; try discriminate.
  - now rewrite !app_empty_l in H.
  - rewrite !app_cons in H. injection H as -> H. simpl in Hlen.
    destruct (IH c) as [-> ->]; [lia | assumption | auto].
Qed.

Lemma get_beyond (s : string) (i : nat) :
  String.length s <= i -> String.get i s = None.
Proof.
  revert i. induction s as [|c s IH]; intros i Hi; [reflexivity|].
  destruct i as [|i]; simpl in *; [lia | apply IH; lia].
Qed.

(** A string of length [n] is its first [a] code units when every position
    below [n] is below [a], and is fixed by a prefix and a suffix that
    cover all of its positions. *)
Lemma covered_by_ends (s s' : string) (a b : nat) :
  String.length s = String.length s' ->
  String.length s <= a + b ->
  b <= String.length s ->
  substring 0 a s = substring 0 a s' ->
  substring (String.length s - b) b s = substring (String.length s - b) b s' ->
  s = s'.
Proof.
  intros Hlen Hcov Hb Hp Hq. apply String.get_correct. intros i.
  destruct (Nat.lt_ge_cases i a) as [Hi | Hi].
  - rewrite <- (Nat.add_0_r i).
    rewrite <- (substring_correct1 s 0 a i Hi), <- (substring_correct1 s' 0 a i Hi).
    now rewrite Hp.
  - destruct (Nat.lt_ge_cases i (String.length s)) as [Hin | Hout].
    + replace i with ((i - (String.length s - b)) + (String.length s - b)) by lia.
      rewrite <- (substring_correct1 s _ b), <- (substring_correct1 s' _ b) by lia.
      now rewrite Hq.
    + rewrite !get_beyond; [reflexivity | lia | lia].
Qed.

(** The masked form shows the first [min 5 n] and the last [min 4 n] code
    units of a string of [n] code units.  So a secret of at most four code
    units is shown in full, twice; and among the strings of one length up to
    nine, the masked form determines the secret. *)
Theorem masked_short_secrets (s : string) :
  masked s
  = substring 0 (Nat.min 5 (String.length s)) s +:+ "..."
    +:+ substring (String.length s - Nat.min 4 (String.length s))
          (Nat.min 4 (String.length s)) s /\
  (String.length s <= 4 -> masked s = s +:+ "..." +:+ s) /\
  (String.length s <= 9 ->
   forall s' : string,
     String.length s' = String.length s -> masked s' = masked s -> s' = s).
Proof.
  split; [apply masked_general|]. split.
  - intros Hn. rewrite masked_general.
    rewrite !Nat.min_r by lia. rewrite Nat.sub_diag. now rewrite substring_all.
  - intros Hn s' Hlen Hm. rewrite !masked_general, Hlen in Hm.
    set (n := String.length s) in *.
    apply app_inv_length in Hm as [Hp Hq].
    + apply app_inv_length in Hq as [_ Hq]; [|reflexivity].
      apply (covered_by_ends s' s (Nat.min 5 n) (Nat.min 4 n));
        rewrite ?Hlen; fold n; try assumption; lia.
    + rewrite !length_substring; [reflexivity | fold n; lia | rewrite Hlen; fold n; lia].
Qed.

(** The theorem at a secret of three code units and at one of seven. *)
Lemma masked_short_secrets_witness :
  masked "abc" = "abc...abc" /\
  forall s' : string,
    String.length s' = 7 -> masked s' = masked "abcdefg" -> s' = "abcdefg".
Proof.
  destruct (masked_short_secrets "abc") as (_ & H4 & _).
  destruct (masked_short_secrets "abcdefg") as (_ & _ & H9).
  split; [apply H4; simpl; lia | apply H9; simpl; lia].
Defined.

End MaskEdges.

(** ** The lines of the panel *)

Section PanelLines.

Import UI.












(** The panel is the status line, then the three blocks of tokens, keys and
    channels, each a header with its count followed by one line per entry or
    by [(None)] for an empty list, then the controls. *)
Theorem panel_layout (clock : nat -> Z) (sd : status_data) :
  formatStatusContent clock sd
  = "{bold}Status:{/} "
    +:+ (if isRunning sd then "{green-fg}Running{/green-fg}"
         else "{red-fg}Stopped{/red-fg}") +:+ nl
    +:+ nl +:+ "{bold}Discord Tokens (" +:+ dec (length (botInfos sd))
    +:+ "/" +:+ dec (length (discordTokens sd)) +:+ " loaded):{/}" +:+ nl
    +:+ match discordTokens sd with
        | [] => " (None)" +:+ nl
        | _ => forEach (renderToken (botInfos sd)) (discordTokens sd) EmptyString
        end
    +:+ nl +:+ "{bold}Google API Keys (" +:+ dec (length (googleApiKeys sd))
    +:+ "):{/}" +:+ nl
    +:+ match googleApiKeys sd with
        | [] => " (None)" +:+ nl
        | _ => fst (forEach (renderKey clock (rateLimitedKeys sd))
                      (googleApiKeys sd) (EmptyString, 0))
        end
    +:+ nl +:+ "{bold}Channels (" +:+ dec (length (channelIds sd))
    +:+ "):{/}" +:+ nl
    +:+ match channelIds sd with
        | [] => " (None)" +:+ nl
        | _ => forEach (renderChannel (channelDetails sd)) (channelIds sd)
                 EmptyString
        end
    +:+ controls.
Proof.
  unfold formatStatusContent, forEach. cbv zeta.
  rewrite (forEach_from_appends _ _ (renderToken_appends (botInfos sd))).
  rewrite (forEach_from_appends _ _ (renderChannel_appends (channelDetails sd))).
  rewrite forEach_from_renderKey. cbn [fst].
  destruct (discordTokens sd), (googleApiKeys sd), (channelIds sd);
    cbn [length Nat.ltb Nat.leb]; now rewrite !app_assoc_str.
Qed.

End PanelLines.

(** ** The [TUI] object *)

Section ScreenObject.

Import Screen.

Lemma keeps_uret {A} (a : A) : keeps_fields (uret a).
Proof. intros lib ui out. reflexivity. Qed.

Lemma keeps_uthrow {A} (message : string) : keeps_fields (@uthrow A message).
Proof. intros lib ui out. reflexivity. Qed.

Lemma keeps_call (c : blessed_call) : keeps_fields (call c).
Proof.
  intros lib ui out. unfold call. cbn [fst snd].
  destruct (lib (calls_so_far out)); reflexivity.
Qed.

Lemma keeps_console_error (label : string) (e : js_error) (rest : list string) :
  keeps_fields (console_error label e rest).
Proof. intros lib ui out. reflexivity. Qed.

Lemma keeps_console_log (message : string) : keeps_fields (console_log message).
Proof. intros lib ui out. reflexivity. Qed.

Lemma keeps_ubind {A B} (m : U A) (k : A -> U B) :
  keeps_fields m -> (forall a, keeps_fields (k a)) -> keeps_fields (ubind m k).
Proof.
  intros Hm Hk lib ui out. unfold ubind. specialize (Hm lib ui out).
  destruct (m lib (ui, out)) as [[a | e] [ui' out']]; cbn [fst snd] in *; subst.
  - apply Hk.
  - reflexivity.
Qed.

Lemma keeps_utry {A} (body : U A) (handler : js_error -> U A) :
  keeps_fields body -> (forall e, keeps_fields (handler e)) ->
  keeps_fields (utry body handler).
Proof.
  intros Hb Hh lib ui out. unfold utry. specialize (Hb lib ui out).
  destruct (body lib (ui, out)) as [[a | e] [ui' out']]; cbn [fst snd] in *; subst.
  - reflexivity.
  - apply Hh.
Qed.

Lemma keeps_get_fields : keeps_fields get_fields.
Proof. intros lib ui out. reflexivity. Qed.

Lemma keeps_reading {A} (k : tui_fields -> U A) :
  (forall ui, keeps_fields (k ui)) -> keeps_fields (ubind get_fields k).
Proof. intros Hk. apply keeps_ubind; [apply keeps_get_fields | assumption]. Qed.

Lemma keeps_screen_call (c : blessed_call) (method : string) :
  keeps_fields (screen_call c method).
Proof.
  apply keeps_reading. intros ui.
  destruct (screen ui); [apply keeps_call | apply keeps_uthrow].
Qed.

Lemma keeps_focus_current : keeps_fields focus_current.
Proof.
  apply keeps_reading. intros ui.
  destruct (pane_at _ _); [apply keeps_call | apply keeps_uthrow].
Qed.

Lemma keeps_addLog (level message : string) : keeps_fields (addLog level message).
Proof.
  apply keeps_utry; [|intros e; apply keeps_console_error].
  apply keeps_ubind; [|intros _; apply keeps_screen_call].
  destruct (String.eqb level "SUCCESS"); apply keeps_call.
Qed.

Lemma keeps_updateStatus (clock : nat -> Z) (sd : UI.status_data) :
  keeps_fields (updateStatus clock sd).
Proof.
  apply keeps_utry; [|intros e; apply keeps_console_error].
  apply keeps_ubind; [apply keeps_call | intros _; apply keeps_screen_call].
Qed.

Lemma keeps_emit (event : string) : keeps_fields (emit event).
Proof.
  apply keeps_reading. intros ui.
  destruct (screen ui); [apply keeps_call | apply keeps_uret].
Qed.

(** The fields after a handler that sets the index and then only talks to
    [blessed]. *)
Lemma set_index_then {A} (index : tui_fields -> option Z) (rest : U A)
    (lib : library) (ui : tui_fields) (out : list output) :
  keeps_fields rest ->
  fst (snd ((ui0 <~ get_fields ;; set_index (index ui0) ;;~ rest) lib (ui, out)))
  = {| screen := screen ui;
       scrollablePanes := scrollablePanes ui;
       currentFocusIndex := index ui |}.
Proof.
  intros Hrest. unfold ubind at 1 2. unfold get_fields, set_index, ubind, put_fields.
  cbn [fst snd]. apply Hrest.
Qed.

Lemma key_tab_fields (lib : library) (ui : tui_fields) (out : list output) :
  fst (snd (key_tab lib (ui, out)))
  = {| screen := screen ui;
       scrollablePanes := scrollablePanes ui;
       currentFocusIndex :=
         match currentFocusIndex ui with
         | Some i => js_rem (i + 1) (Z.of_nat (length (scrollablePanes ui)))
         | None => None
         end |}.
Proof.
  unfold key_tab. cbv zeta.
  apply (set_index_then
           (fun ui => match currentFocusIndex ui with
                      | Some i => js_rem (i + 1) (Z.of_nat (length (scrollablePanes ui)))
                      | None => None
                      end)).
  apply keeps_ubind; [apply keeps_focus_current | intros _; apply keeps_screen_call].
Qed.

Lemma key_shift_tab_fields (lib : library) (ui : tui_fields) (out : list output) :
  fst (snd (key_shift_tab lib (ui, out)))
  = {| screen := screen ui;
       scrollablePanes := scrollablePanes ui;
       currentFocusIndex :=
         match currentFocusIndex ui with
         | Some i => js_rem (i - 1 + Z.of_nat (length (scrollablePanes ui)))
                       (Z.of_nat (length (scrollablePanes ui)))
         | None => None
         end |}.
Proof.
  unfold key_shift_tab. cbv zeta.
  apply (set_index_then
           (fun ui => match currentFocusIndex ui with
                      | Some i => js_rem (i - 1 + Z.of_nat (length (scrollablePanes ui)))
                                    (Z.of_nat (length (scrollablePanes ui)))
                      | None => None
                      end)).
  apply keeps_ubind; [apply keeps_focus_current | intros _; apply keeps_screen_call].
Qed.

Lemma js_rem_next (i n : Z) :
  (0 <= i < n)%Z -> js_rem (i + 1) n = Some ((i + 1) mod n)%Z.
Proof.
  intros H. unfold js_rem. destruct (Z.eqb_spec n 0); [lia|].
  now rewrite Z.rem_mod_nonneg by lia.
Qed.

Lemma js_rem_previous (i n : Z) :
  (0 <= i < n)%Z -> js_rem (i - 1 + n) n = Some ((i - 1) mod n)%Z.
Proof.
  intros H. unfold js_rem. destruct (Z.eqb_spec n 0); [lia|].
  rewrite Z.rem_mod_nonneg by lia. f_equal.
  replace (i - 1 + n)%Z with (i - 1 + 1 * n)%Z by lia. apply Z.mod_add. lia.
Qed.

End ScreenObject.

Section FocusCycle.

Import Screen.

Lemma constructor_fields (lib : library) (ui0 : tui_fields) :
  completion_of constructor lib ui0 = Normal tt ->
  fields_after constructor lib ui0
  = {| screen := true;
       scrollablePanes := [MainLogBox; SuccessLogBox; StatusBox];
       currentFocusIndex := Some 0%Z |}.
Proof.
  unfold completion_of, fields_after, constructor, initComponents,
    attachHandlers, render, on, screen_call, push_pane.
  unfold ubind, call, put_fields, get_fields, uret, uthrow. cbn.
  repeat match goal with
         | |- context [lib ?n] => destruct (lib n); cbn; [discriminate|]
         end.
  reflexivity.
Qed.

(** The focus index always designates one of the panes: [new TUI()]
    leaves the three panes with the index 0, and every handler that
    [attachHandlers] registers keeps the panes and keeps the index in
    range, whatever the calls on [blessed] do. *)
Theorem focus_index_invariant :
  (forall (lib : library) (ui0 : tui_fields),
     completion_of constructor lib ui0 = Normal tt ->
     focus_ok (fields_after constructor lib ui0) /\
     scrollablePanes (fields_after constructor lib ui0)
     = [MainLogBox; SuccessLogBox; StatusBox]) /\
  (forall (clock : nat -> Z) (ev : screen_event) (lib : library)
          (ui : tui_fields) (out : list output),
     focus_ok ui ->
     focus_ok (fst (snd (handle clock ev lib (ui, out)))) /\
     scrollablePanes (fst (snd (handle clock ev lib (ui, out))))
     = scrollablePanes ui).
Proof.
  split.
  - intros lib ui0 H. rewrite (constructor_fields lib ui0 H). split; [|reflexivity].
    exists 0%Z. split; [reflexivity | cbn [scrollablePanes length]; lia].
  - intros clock ev lib ui out (i & Hi & Hrange).
    destruct ev as [level message | sd | | | |]; cbn [handle].
    + rewrite keeps_addLog. split; [exists i; auto | reflexivity].
    + rewrite keeps_updateStatus. split; [exists i; auto | reflexivity].
    + rewrite keeps_screen_call. split; [exists i; auto | reflexivity].
    + rewrite keeps_emit. split; [exists i; auto | reflexivity].
    + rewrite key_tab_fields, Hi, (js_rem_next _ _ Hrange).
      unfold focus_ok. cbn [scrollablePanes currentFocusIndex].
      split; [|reflexivity]. eexists. split; [reflexivity|].
      apply Z.mod_pos_bound. lia.
    + rewrite key_shift_tab_fields, Hi, (js_rem_previous _ _ Hrange).
      unfold focus_ok. cbn [scrollablePanes currentFocusIndex].
      split; [|reflexivity]. eexists. split; [reflexivity|].
      apply Z.mod_pos_bound. lia.
Qed.

(** The theorem for the key [tab] on the object that [new TUI()] builds. *)
Lemma focus_index_invariant_witness :
  focus_ok (fst (snd (key_tab healthy (fields_after constructor healthy blank, [])))).
Proof.
  destruct focus_index_invariant as [Hnew Hstep].
  apply (Hstep (fun _ => 0%Z) EvTab). apply Hnew. reflexivity.
Defined.

(** [tab] and [S-tab] undo each other: after the one and then the other the
    focus index is what it was, whatever the calls on [blessed] do. *)
Theorem tab_shift_tab_inverse (lib lib' : library) (ui : tui_fields)
    (out out' : list output) :
  focus_ok ui ->
  fst (snd (key_shift_tab lib' (fst (snd (key_tab lib (ui, out))), out'))) = ui /\
  fst (snd (key_tab lib' (fst (snd (key_shift_tab lib (ui, out))), out'))) = ui.
Proof.
  intros (i & Hi & Hrange).
  set (n := Z.of_nat (length (scrollablePanes ui))) in *.
  rewrite key_shift_tab_fields, key_tab_fields, key_tab_fields, key_shift_tab_fields.
  cbn [screen scrollablePanes currentFocusIndex]. fold n.
  rewrite Hi, (js_rem_next _ _ Hrange), (js_rem_previous _ _ Hrange).
  pose proof (Z.mod_pos_bound (i + 1) n ltac:(lia)) as Hb1.
  pose proof (Z.mod_pos_bound (i - 1) n ltac:(lia)) as Hb2.
  rewrite (js_rem_previous _ _ Hb1), (js_rem_next _ _ Hb2).
  rewrite Zminus_mod_idemp_l, Zplus_mod_idemp_l.
  replace (i + 1 - 1)%Z with i by lia. replace (i - 1 + 1)%Z with i by lia.
  rewrite Z.mod_small by lia. rewrite <- Hi. destruct ui; split; reflexivity.
Qed.

(** The theorem on the object that [new TUI()] builds. *)
Lemma tab_shift_tab_inverse_witness :
  currentFocusIndex
    (fst (snd (key_tab healthy
                 (fst (snd (key_shift_tab healthy
                              (fields_after constructor healthy blank, []))), []))))
  = Some 0%Z.
Proof.
  destruct (tab_shift_tab_inverse healthy healthy
              (fields_after constructor healthy blank) [] []) as [_ H].
  - exists 0%Z. split; [reflexivity | vm_compute; split; [discriminate | reflexivity]].
  - rewrite H. reflexivity.
Defined.

Lemma calls_so_far_app (out out' : list output) :
  calls_so_far (out ++ out')%list = calls_so_far out + calls_so_far out'.
Proof. unfold calls_so_far. now rewrite List.filter_app, List.length_app. Qed.

Lemma pane_at_in_range (panes : list pane) (i : Z) :
  (0 <= i < Z.of_nat (length panes))%Z ->
  exists p : pane, pane_at panes (Some i) = Some p.
Proof.
  intros H. unfold pane_at. destruct (Z.leb_spec 0 i); [|lia].
  destruct (nth_error panes (Z.to_nat i)) as [p|] eqn:Hn; [eauto|].
  apply nth_error_None in Hn. lia.
Qed.

(** With the screen alive and a library that returns, [tab] moves the
    index to the next pane, to the first one after the last, focuses that
    pane and renders once. *)
Lemma key_tab_healthy (ui : tui_fields) (out : list output) (i : Z) :
  screen ui = true ->
  currentFocusIndex ui = Some i ->
  (0 <= i < Z.of_nat (length (scrollablePanes ui)))%Z ->
  exists p : pane,
    pane_at (scrollablePanes ui)
      (Some ((i + 1) mod Z.of_nat (length (scrollablePanes ui)))%Z) = Some p /\
    key_tab healthy (ui, out)
    = (Normal tt,
       ({| screen := true;
           scrollablePanes := scrollablePanes ui;
           currentFocusIndex :=
             Some ((i + 1) mod Z.of_nat (length (scrollablePanes ui)))%Z |},
        (out ++ [Call (Focus p); Call Render])%list)).
Proof.
  intros Hs Hi Hrange.
  destruct (pane_at_in_range (scrollablePanes ui)
              ((i + 1) mod Z.of_nat (length (scrollablePanes ui)))%Z) as (p & Hp).
  { apply Z.mod_pos_bound. lia. }
  exists p. split; [assumption|].
  unfold key_tab, focus_current, screen_call, set_index.
  unfold ubind, get_fields, put_fields, call, healthy. cbn [fst snd].
  rewrite Hi, (js_rem_next _ _ Hrange), Hs. cbn [scrollablePanes currentFocusIndex screen].
  rewrite Hp. cbn [screen fst snd]. now rewrite <- app_assoc.
Qed.

(** Pressing [tab] [k] times moves the focus index by [k] around the
    panes; once around, it is back where it was. *)
Theorem tab_cycles (clocks : nat -> nat -> Z) (n k : nat) (ui : tui_fields)
    (out : list output) (i : Z) :
  screen ui = true ->
  currentFocusIndex ui = Some i ->
  (0 <= i < Z.of_nat (length (scrollablePanes ui)))%Z ->
  fst (handle_all clocks n (repeat EvTab k) healthy (ui, out)) = Normal tt /\
  fst (snd (handle_all clocks n (repeat EvTab k) healthy (ui, out)))
  = {| screen := true;
       scrollablePanes := scrollablePanes ui;
       currentFocusIndex :=
         Some ((i + Z.of_nat k) mod Z.of_nat (length (scrollablePanes ui)))%Z |} /\
  (k = length (scrollablePanes ui) ->
   fst (snd (handle_all clocks n (repeat EvTab k) healthy (ui, out))) = ui).
Proof.
  intros Hs Hi Hrange.
  assert (Hmain :
    fst (handle_all clocks n (repeat EvTab k) healthy (ui, out)) = Normal tt /\
    fst (snd (handle_all clocks n (repeat EvTab k) healthy (ui, out)))
    = {| screen := true;
         scrollablePanes := scrollablePanes ui;
         currentFocusIndex :=
           Some ((i + Z.of_nat k) mod Z.of_nat (length (scrollablePanes ui)))%Z |}).
  { revert n ui out i Hs Hi Hrange.
    induction k as [|k IH]; intros n ui out i Hs Hi Hrange.
    - cbn. split; [reflexivity|]. rewrite Z.add_0_r, Z.mod_small by lia.
      rewrite <- Hi, <- Hs. now destruct ui.
    - cbn [repeat handle_all handle]. unfold ubind.
      destruct (key_tab_healthy ui out i Hs Hi Hrange) as (p & _ & ->).
      set (ui' := {| screen := true; scrollablePanes := scrollablePanes ui;
                     currentFocusIndex := _ |}).
      destruct (IH (S n) ui' (out ++ [Call (Focus p); Call Render])%list
                  ((i + 1) mod Z.of_nat (length (scrollablePanes ui)))%Z)
        as [Hc Hf]; [reflexivity | reflexivity | apply Z.mod_pos_bound; cbn; lia |].
      split; [exact Hc|]. rewrite Hf. cbn [scrollablePanes ui'].
      rewrite Zplus_mod_idemp_l. do 3 f_equal. lia. }
  destruct Hmain as [Hc Hf]. split; [exact Hc|]. split; [exact Hf|].
  intros ->. rewrite Hf.
  replace (i + Z.of_nat (length (scrollablePanes ui)))%Z
    with (i + 1 * Z.of_nat (length (scrollablePanes ui)))%Z by lia.
  rewrite Z.mod_add, Z.mod_small by lia. rewrite <- Hi, <- Hs. now destruct ui.
Qed.

(** Three [tab]s on the object that [new TUI()] builds. *)
Lemma tab_cycles_witness :
  fst (snd (handle_all (fun _ _ => 0%Z) 0 [EvTab; EvTab; EvTab] healthy
              (fields_after constructor healthy blank, [])))
  = fields_after constructor healthy blank.
Proof.
  destruct (tab_cycles (fun _ _ => 0%Z) 0 3 (fields_after constructor healthy blank)
              [] 0) as (_ & _ & H);
    [reflexivity | reflexivity | vm_compute; split; [discriminate | reflexivity] |].
  apply H. reflexivity.
Defined.

End FocusCycle.

Section LogsAndStatus.

Import Screen.

Lemma logged_app (box : pane) (out out' : list output) :
  logged box (out ++ out')%list = (logged box out ++ logged box out')%list.
Proof. unfold logged. apply flat_map_app. Qed.

(** One run of [addLog]: it attempts [log] on one box, then [render] if
    that returned, and reports on the console what either of them threw. *)
Lemma addLog_run (lib : library) (ui : tui_fields) (out : list output)
    (level message : string) :
  exists rest : list output,
    addLog level message lib (ui, out)
    = (Normal tt, (ui, (out ++ Call (Log (box_of level) message) :: rest)%list)) /\
    (forall box : pane, logged box rest = []) /\
    (lib (calls_so_far out) = None -> screen ui = true ->
     lib (S (calls_so_far out)) = None -> rest = [Call Render]).
Proof.
  unfold addLog, box_of, screen_call, utry, ubind, get_fields, call,
    console_error, uthrow.
  destruct (String.eqb level "SUCCESS"); cbn [fst snd];
    (destruct (lib (calls_so_far out)) as [m1|] eqn:H1; cbn [fst snd];
     [| destruct (screen ui) eqn:Hs; cbn [fst snd];
        [ rewrite calls_so_far_app, Nat.add_1_r;
          destruct (lib (S (calls_so_far out))) as [m2|] eqn:H2; cbn [fst snd] |]]);
    rewrite <- ?app_assoc; eexists; (split; [reflexivity|]);
    (split; [intros []; reflexivity | intros; congruence]).
Qed.

(** [addLog] sends a message to the success log exactly when its level is
    ['SUCCESS'] and to the main log otherwise: over any sequence of log
    events, whatever [blessed] does, the success log is handed the
    messages of level ['SUCCESS'], the main log all the others, each in
    their order, and the run completes with the fields unchanged. *)
Theorem log_routing (clocks : nat -> nat -> Z) (n : nat) (lib : library)
    (ui : tui_fields) (entries : list (string * string)) (out : list output) :
  let run := handle_all clocks n (map (fun e => EvLog (fst e) (snd e)) entries)
               lib (ui, out) in
  fst run = Normal tt /\
  fst (snd run) = ui /\
  logged SuccessLogBox (snd (snd run))
  = (logged SuccessLogBox out
     ++ map snd (List.filter (fun e => String.eqb (fst e) "SUCCESS") entries))%list /\
  logged MainLogBox (snd (snd run))
  = (logged MainLogBox out
     ++ map snd (List.filter (fun e => negb (String.eqb (fst e) "SUCCESS")) entries))%list /\
  logged StatusBox (snd (snd run)) = logged StatusBox out.
Proof.
  cbv zeta. revert n out.
  induction entries as [|[level message] entries IH]; intros n out.
  - cbn. rewrite !app_nil_r. repeat split.
  - cbn [map handle_all handle fst snd]. unfold ubind.
    destruct (addLog_run lib ui out level message) as (rest & -> & Hrest & _).
    destruct (IH (S n) (out ++ Call (Log (box_of level) message) :: rest)%list)
      as (Hc & Hf & Hs & Hm & Hb).
    split; [exact Hc|]. split; [exact Hf|].
    rewrite Hs, Hm, Hb, !logged_app.
    change (Call (Log (box_of level) message) :: rest)
      with ([Call (Log (box_of level) message)] ++ rest)%list.
    rewrite !logged_app, !Hrest, !app_nil_r.
    unfold box_of. cbn [List.filter fst snd].
    destruct (String.eqb level "SUCCESS"); cbn [negb logged flat_map pane_eqb map app];
      rewrite ?app_nil_r, <- ?app_assoc; repeat split.
Qed.

(** [updateStatus] and [addLog] never throw, whatever [blessed] does and
    also after [destroy]: the failure of a call ends up on the console.
    [updateStatus] hands [setContent] the text of [formatStatusContent]
    and then renders, when the screen is there and the calls return. *)
Theorem panel_calls_contained (clock : nat -> Z) (lib : library)
    (ui : tui_fields) (out : list output) :
  (forall sd : UI.status_data,
     exists rest : list output,
       updateStatus clock sd lib (ui, out)
       = (Normal tt,
          (ui, (out ++ Call (SetContent (UI.formatStatusContent clock sd))
                       :: rest)%list)) /\
       (lib (calls_so_far out) = None -> screen ui = true ->
        lib (S (calls_so_far out)) = None -> rest = [Call Render]) /\
       (forall message : string,
          lib (calls_so_far out) = Some message ->
          rest = [ConsoleError "TUI Status Update Error:" message []]) /\
       (lib (calls_so_far out) = None -> screen ui = false ->
        rest = [ConsoleError "TUI Status Update Error:"
                  "Cannot read properties of null (reading 'render')" []])) /\
  (forall level message : string,
     exists rest : list output,
       addLog level message lib (ui, out)
       = (Normal tt,
          (ui, (out ++ Call (Log (if String.eqb level "SUCCESS"
                                  then SuccessLogBox else MainLogBox) message)
                       :: rest)%list)) /\
       (lib (calls_so_far out) = None -> screen ui = true ->
        lib (S (calls_so_far out)) = None -> rest = [Call Render])).
Proof.
  split.
  - intros sd.
    unfold updateStatus, screen_call, utry, ubind, get_fields, call,
      console_error, uthrow. cbn [fst snd].
    destruct (lib (calls_so_far out)) as [m1|] eqn:H1; cbn [fst snd];
      [| destruct (screen ui) eqn:Hs; cbn [fst snd];
         [ rewrite calls_so_far_app, Nat.add_1_r;
           destruct (lib (S (calls_so_far out))) as [m2|] eqn:H2; cbn [fst snd] |]];
      rewrite <- ?app_assoc; eexists; (split; [reflexivity|]);
      (split; [intros; congruence|]);
      (split; [intros m Hm; try congruence; injection Hm as <-; reflexivity|]);
      intros; try congruence; reflexivity.
  - intros level message.
    destruct (addLog_run lib ui out level message) as (rest & Hrun & _ & Hrest).
    exists rest. split; [exact Hrun | exact Hrest].
Qed.

(** The theorem for a log line after [destroy], where [render] fails. *)
Lemma panel_calls_contained_witness :
  completion_of (destroy ;;~ addLog "INFO" "bye") healthy
    (fields_after constructor healthy blank)
  = Normal tt.
Proof.
  unfold completion_of, ubind.
  destruct (destroy healthy (fields_after constructor healthy blank, []))
    as [[[] | e] [ui out]] eqn:Hd; [|discriminate].
  destruct (panel_calls_contained (fun _ => 0%Z) healthy ui out) as [_ H].
  destruct (H "INFO" "bye") as (rest & -> & _). reflexivity.
Defined.

(** [destroy] calls [screen.destroy()], forgets the screen and says so on
    the console; if the call throws, the error escapes and the screen is
    kept.  Without a screen, [render], [on], [emit] and [destroy] do
    nothing at all, so a second [destroy] is harmless. *)
Theorem destroyed_is_inert (lib : library) (ui : tui_fields) (out : list output) :
  (screen ui = true -> lib (calls_so_far out) = None ->
   destroy lib (ui, out)
   = (Normal tt,
      ({| screen := false;
          scrollablePanes := scrollablePanes ui;
          currentFocusIndex := currentFocusIndex ui |},
       (out ++ [Call Destroy; ConsoleLog "TUI Screen Destroyed."])%list))) /\
  (screen ui = true ->
   forall message : string,
     lib (calls_so_far out) = Some message ->
     destroy lib (ui, out)
     = (Abrupt {| err_response := None; err_message := message |},
        (ui, (out ++ [Call Destroy])%list))) /\
  (screen ui = false ->
   render lib (ui, out) = (Normal tt, (ui, out)) /\
   destroy lib (ui, out) = (Normal tt, (ui, out)) /\
   forall event : string,
     on event lib (ui, out) = (Normal tt, (ui, out)) /\
     emit event lib (ui, out) = (Normal tt, (ui, out))).
Proof.
  unfold destroy, render, on, emit, ubind, get_fields, put_fields, call,
    console_log, uret. cbn [fst snd].
  split; [|split].
  - intros Hs Hl. rewrite Hs. cbn [fst snd]. rewrite Hl. cbn [fst snd].
    now rewrite <- app_assoc.
  - intros Hs message Hl. rewrite Hs. cbn [fst snd]. now rewrite Hl.
  - intros Hs. rewrite Hs. repeat split.
Qed.

(** The theorem for a second [destroy] and for a [destroy] that succeeds. *)
Lemma destroyed_is_inert_witness :
  destroy healthy
    ({| screen := false;
        scrollablePanes := [MainLogBox; SuccessLogBox; StatusBox];
        currentFocusIndex := Some 0%Z |},
     [Call Destroy; ConsoleLog "TUI Screen Destroyed."])
  = (Normal tt,
     ({| screen := false;
         scrollablePanes := [MainLogBox; SuccessLogBox; StatusBox];
         currentFocusIndex := Some 0%Z |},
      [Call Destroy; ConsoleLog "TUI Screen Destroyed."])) /\
  fields_after destroy healthy
    {| screen := true;
       scrollablePanes := [MainLogBox; SuccessLogBox; StatusBox];
       currentFocusIndex := Some 0%Z |}
  = {| screen := false;
       scrollablePanes := [MainLogBox; SuccessLogBox; StatusBox];
       currentFocusIndex := Some 0%Z |}.
Proof.
  split.
  - apply (destroyed_is_inert healthy _ _). reflexivity.
  - unfold fields_after.
    rewrite (proj1 (destroyed_is_inert healthy _ [])); reflexivity.
Defined.

End LogsAndStatus.

(** ** Requests and console lines of the client *)

Section ClientTraces.

Import ApiClient.

Variable rt : js_runtime.
Variable net : network.

Lemma fetchMessages_exact (channelId token : string) :
  let req := {| method := GET;
                url := DISCORD_API_BASE +:+ "/channels/" +:+ channelId
                       +:+ "/messages?limit=5";
                headers := createDiscordHeaders token;
                body := None |} in
  run (fetchMessages channelId token) net
  = match settled (net 0 req) with
    | Some response => (Normal (data response), [Http req])
    | None =>
        (Normal VNull,
         [Http req;
          Console LError
            ("[API Error] Failed to fetch messages for channel " +:+ channelId +:+ ":")
            [error_detail (rejection (net 0 req))]])
    end.
Proof.
  cbv zeta. unfold run, fetchMessages, axios_get, settled, rejection. cbv zeta.
  rewrite try_axios. change (requests_so_far []) with 0.
  destruct (net 0 _) as [msg | r1]; [|destruct (validateStatus (status r1))];
    reflexivity.
Qed.

Lemma sendMessage_exact (channelId content token : string)
    (replyToMessageId : option string) :
  let req := {| method := POST;
                url := DISCORD_API_BASE +:+ "/channels/" +:+ channelId +:+ "/messages";
                headers := createDiscordHeaders token;
                body := Some (send_payload content replyToMessageId) |} in
  let retry_after := opt_prop (response_data (rejection (net 0 req))) "retry_after" in
  run (sendMessage rt channelId content token replyToMessageId) net
  = match settled (net 0 req) with
    | Some response => (Normal (data response), [Http req])
    | None =>
        (Normal VNull,
         Http req
         :: Console LError
              ("[API Error] Failed to send message to channel " +:+ channelId +:+ ":")
              [error_detail (rejection (net 0 req))]
         :: (if truthy retry_after
             then [Console LWarn
                     ("[API Warn] Hit rate limit/slow mode in channel " +:+ channelId
                      +:+ ". Retry after: " +:+ to_string rt retry_after +:+ "s") []]
             else []))
    end.
Proof.
  cbv zeta. unfold run, sendMessage, axios_post, settled, rejection. cbv zeta.
  rewrite try_axios. change (requests_so_far []) with 0.
  destruct (net 0 _) as [msg | r1]; [|destruct (validateStatus (status r1))];
    unfold bind, console; cbn [app];
    try match goal with
        | |- context [if truthy ?v then _ else _] => destruct (truthy v)
        end;
    reflexivity.
Qed.

Lemma deleteMessage_exact (channelId messageId token : string) :
  let req := {| method := DELETE;
                url := DISCORD_API_BASE +:+ "/channels/" +:+ channelId
                       +:+ "/messages/" +:+ messageId;
                headers := createDiscordHeaders token;
                body := None |} in
  run (deleteMessage channelId messageId token) net
  = match settled (net 0 req) with
    | Some _ => (Normal (VBool true), [Http req])
    | None =>
        (Normal (VBool false),
         [Http req;
          Console LError
            ("[API Error] Failed to delete message " +:+ messageId
             +:+ " in channel " +:+ channelId +:+ ":")
            [error_detail (rejection (net 0 req))]])
    end.
Proof.
  cbv zeta. unfold run, deleteMessage, axios_delete, settled, rejection. cbv zeta.
  rewrite try_axios. change (requests_so_far []) with 0.
  destruct (net 0 _) as [msg | r1]; [|destruct (validateStatus (status r1))];
    reflexivity.
Qed.

Lemma getBotInfo_exact (token : string) :
  let req := {| method := GET;
                url := DISCORD_API_BASE +:+ "/users/@me";
                headers := createDiscordHeaders token;
                body := None |} in
  run (getBotInfo token) net
  = match settled (net 0 req) with
    | Some response => (Normal (data response), [Http req])
    | None =>
        (Normal VNull,
         [Http req;
          Console LError
            ("[API Error] Failed to fetch bot info for token "
             +:+ js_substring token 0 (Some 5%Z) +:+ "...:")
            [error_detail (rejection (net 0 req))]])
    end.
Proof.
  cbv zeta. unfold run, getBotInfo, axios_get, settled, rejection. cbv zeta.
  rewrite try_axios. change (requests_so_far []) with 0.
  destruct (net 0 _) as [msg | r1]; [|destruct (validateStatus (status r1))];
    reflexivity.
Qed.

End ClientTraces.

Section ClientRequests.

Import ApiClient.

(** Each of [fetchMessages], [sendMessage], [deleteMessage] and
    [getBotInfo] issues exactly one request, whatever the network answers:
    nothing is retried.  The request carries the token as its
    [Authorization] header; only the one of [sendMessage] has a body. *)
Theorem discord_requests (rt : js_runtime) (net : network) :
  (forall channelId token : string,
     exists log : list event,
       trace (fetchMessages channelId token) net
       = Http {| method := GET;
                 url := DISCORD_API_BASE +:+ "/channels/" +:+ channelId
                        +:+ "/messages?limit=5";
                 headers := [("Authorization", token);
                             ("Content-Type", "application/json");
                             ("User-Agent", "DiscordBot (Node.js, 1.0)")];
                 body := None |} :: log /\
       requests_so_far log = 0) /\
  (forall (channelId content token : string) (replyToMessageId : option string),
     exists log : list event,
       trace (sendMessage rt channelId content token replyToMessageId) net
       = Http {| method := POST;
                 url := DISCORD_API_BASE +:+ "/channels/" +:+ channelId
                        +:+ "/messages";
                 headers := [("Authorization", token);
                             ("Content-Type", "application/json");
                             ("User-Agent", "DiscordBot (Node.js, 1.0)")];
                 body := Some (send_payload content replyToMessageId) |} :: log /\
       requests_so_far log = 0) /\
  (forall channelId messageId token : string,
     exists log : list event,
       trace (deleteMessage channelId messageId token) net
       = Http {| method := DELETE;
                 url := DISCORD_API_BASE +:+ "/channels/" +:+ channelId
                        +:+ "/messages/" +:+ messageId;
                 headers := [("Authorization", token);
                             ("Content-Type", "application/json");
                             ("User-Agent", "DiscordBot (Node.js, 1.0)")];
                 body := None |} :: log /\
       requests_so_far log = 0) /\
  (forall token : string,
     exists log : list event,
       trace (getBotInfo token) net
       = Http {| method := GET;
                 url := DISCORD_API_BASE +:+ "/users/@me";
                 headers := [("Authorization", token);
                             ("Content-Type", "application/json");
                             ("User-Agent", "DiscordBot (Node.js, 1.0)")];
                 body := None |} :: log /\
       requests_so_far log = 0).
Proof.
  unfold trace. split; [|split; [|split]].
  - intros channelId token. rewrite fetchMessages_exact. cbv zeta.
    destruct (settled _); eexists; split; reflexivity.
  - intros channelId content token reply. rewrite sendMessage_exact. cbv zeta.
    destruct (settled _); [eexists; split; reflexivity|].
    destruct (truthy _); eexists; split; reflexivity.
  - intros channelId messageId token. rewrite deleteMessage_exact. cbv zeta.
    destruct (settled _); eexists; split; reflexivity.
  - intros token. rewrite getBotInfo_exact. cbv zeta.
    destruct (settled _); eexists; split; reflexivity.
Qed.


End ClientRequests.

Section ChannelTraces.

Import ApiClient.

Variable rt : js_runtime.
Variable net : network.


End ChannelTraces.

Section ChannelClaims.

Import ApiClient.







End ChannelClaims.

(** ** [trim] *)

Section Trim.

Lemma trim_start_spec (s : string) :
  exists lead : string,
    s = lead +:+ trim_start s /\ all_space lead = true /\
    (forall c, first_unit (trim_start s) = Some c -> is_js_space c = false).
Proof.
  induction s as [|c s (lead & Hs & Hl & Hf)].
  - exists EmptyString. repeat split. discriminate.
  - cbn [trim_start]. destruct (is_js_space c) eqn:Hc.
    + exists (String c lead). rewrite app_cons, <- Hs. cbn [all_space].
      rewrite Hc, Hl. repeat split. exact Hf.
    + exists EmptyString. repeat split. intros c' [= <-]. exact Hc.
Qed.

Lemma trim_end_spec (s : string) :
  exists trail : string,
    s = trim_end s +:+ trail /\ all_space trail = true /\
    (forall c, last_unit (trim_end s) = Some c -> is_js_space c = false) /\
    (forall c, first_unit s = Some c -> is_js_space c = false ->
               first_unit (trim_end s) = Some c).
Proof.
  induction s as [|c s (trail & Hs & Hl & Hlast & _)].
  - exists EmptyString. repeat split; try discriminate.
  - cbn [trim_end]. destruct (trim_end s) as [|c' r'] eqn:Ht.
    + destruct (is_js_space c) eqn:Hc.
      * exists (String c trail). rewrite app_empty_l in *. subst s.
        cbn [all_space]. rewrite Hc, Hl.
        split; [reflexivity|]. split; [reflexivity|]. split; [discriminate|].
        intros c0 [= <-] H0. congruence.
      * exists trail. rewrite app_cons, app_empty_l in *. subst s.
        split; [reflexivity|]. split; [assumption|]. split.
        -- intros c0 [= <-]. exact Hc.
        -- intros c0 [= <-] _. reflexivity.
    + exists trail. split; [now rewrite app_cons, <- Hs|].
      split; [assumption|]. split.
      * intros c0 H0. apply Hlast. exact H0.
      * intros c0 [= <-] _. reflexivity.
Qed.

(** [js_trim] removes white space from both ends and nothing else. *)
Lemma js_trim_spec (s : string) :
  exists lead trail : string,
    s = lead +:+ js_trim s +:+ trail /\
    all_space lead = true /\ all_space trail = true /\ tight (js_trim s).
Proof.
  unfold js_trim, tight.
  destruct (trim_start_spec s) as (lead & Hs & Hl & Hf).
  destruct (trim_end_spec (trim_start s)) as (trail & Ht & Htl & Hlast & Hfirst).
  exists lead, trail. split; [now rewrite <- Ht|].
  split; [assumption|]. split; [assumption|]. split; [|assumption].
  intros c Hc. destruct (trim_start s) as [|c0 r] eqn:Hts.
  - discriminate.
  - specialize (Hf c0 eq_refl). specialize (Hfirst c0 eq_refl Hf). congruence.
Qed.

Lemma js_trim_all_space (s : string) : all_space s = true -> js_trim s = EmptyString.
Proof.
  unfold js_trim. induction s as [|c s IH]; [reflexivity|].
  cbn [all_space trim_start]. intros H. apply andb_true_iff in H as [Hc Hs].
  rewrite Hc. now apply IH.
Qed.

End Trim.

Section Silence.

Lemma requests_so_far_app (l1 l2 : list event) :
  requests_so_far (l1 ++ l2)%list = requests_so_far l1 + requests_so_far l2.
Proof. unfold requests_so_far. now rewrite filter_app, List.length_app. Qed.

Lemma silent_ret {A : Type} (a : A) : silent (ret a).
Proof. intros net tr. exists []. split; [now rewrite app_nil_r | reflexivity]. Qed.

Lemma silent_TypeError {A : Type} (message : string) : silent (@TypeError A message).
Proof. intros net tr. exists []. split; [now rewrite app_nil_r | reflexivity]. Qed.

Lemma silent_console (level : console_level) (msg : string) (args : list value) :
  silent (console level msg args).
Proof. intros net tr. eexists. split; reflexivity. Qed.

Lemma silent_bind {A B : Type} (m : M A) (k : A -> M B) :
  silent m -> (forall a, silent (k a)) -> silent (bind m k).
Proof.
  intros Hm Hk net tr. unfold bind. destruct (Hm net tr) as (l1 & H1 & Hr1).
  destruct (m net tr) as [[a | e] tr']; cbn [snd] in *; subst tr'.
  - destruct (Hk a net (tr ++ l1)%list) as (l2 & H2 & Hr2).
    exists (l1 ++ l2)%list. rewrite H2, <- app_assoc, requests_so_far_app. split; [reflexivity | lia].
  - exists l1. auto.
Qed.

Lemma silent_try_catch {A : Type} (body : M A) (handler : js_error -> M A) :
  silent body -> (forall e, silent (handler e)) -> silent (try_catch body handler).
Proof.
  intros Hb Hh net tr. unfold try_catch. destruct (Hb net tr) as (l1 & H1 & Hr1).
  destruct (body net tr) as [[a | e] tr']; cbn [snd] in *; subst tr'.
  - exists l1. auto.
  - destruct (Hh e net (tr ++ l1)%list) as (l2 & H2 & Hr2).
    exists (l1 ++ l2)%list. rewrite H2, <- app_assoc, requests_so_far_app. split; [reflexivity | lia].
Qed.

Lemma silent_get_prop (v : value) (k : string) : silent (get_prop v k).
Proof.
  unfold get_prop. destruct (nullish v); [apply silent_TypeError | apply silent_ret].
Qed.

Lemma silent_get_index (v : value) (n : nat) : silent (get_index v n).
Proof.
  unfold get_index. destruct (nullish v); [apply silent_TypeError | apply silent_ret].
Qed.

Lemma silent_call_trim (v : value) : silent (call_trim v).
Proof. destruct v; simpl; try apply silent_TypeError. apply silent_ret. Qed.

Lemma silent_andM (a b : M bool) : silent a -> silent b -> silent (andM a b).
Proof.
  intros Ha Hb. unfold andM. apply (silent_bind _ _ Ha).
  intros [|]; [exact Hb | apply silent_ret].
Qed.

End Silence.

Section GenerationTraces.

Import ApiClient.

Variable rt : js_runtime.

Lemma silent_has_candidate_text (d : value) : silent (has_candidate_text rt d).
Proof.
  unfold has_candidate_text.
  repeat first
    [ apply silent_andM
    | apply silent_ret
    | apply silent_bind; [apply silent_get_prop || apply silent_get_index | intros ?] ].
Qed.

Lemma silent_candidate_text (d : value) : silent (candidate_text d).
Proof.
  unfold candidate_text.
  repeat (apply silent_bind; [apply silent_get_prop || apply silent_get_index | intros ?]).
  apply silent_get_prop.
Qed.

Lemma gt0_length (rt' : js_runtime) (n : nat) :
  gt0 rt' (VNum (inject_Z (Z.of_nat (S n)))) = true.
Proof.
  unfold gt0, Qle_bool, inject_Z. cbn [Qnum Qden].
  destruct (Z.leb_spec (Z.of_nat (S n) * 1) (0 * 1)); [lia | reflexivity].
Qed.

Lemma prop_length (elems : list value) (own : list (string * value)) :
  prop (VArr elems own) "length" = VNum (inject_Z (Z.of_nat (length elems))).
Proof. reflexivity. Qed.

(** The condition of the [if] holds for a body whose first candidate has
    parts. *)
Lemma has_candidate_text_true (d c0 p0 : value) (cs ps : list value)
    (own own' : list (string * value)) :
  prop d "candidates" = VArr (c0 :: cs) own ->
  prop (prop c0 "content") "parts" = VArr (p0 :: ps) own' ->
  has_candidate_text rt d = ret true.
Proof.
  intros Hc Hp.
  assert (Hd : nullish d = false) by (destruct d; try reflexivity; discriminate).
  assert (Hc0 : nullish c0 = false) by (destruct c0; try reflexivity; discriminate).
  assert (Hct : nullish (prop c0 "content") = false)
    by (destruct (prop c0 "content"); try reflexivity; discriminate).
  assert (Htruthy : truthy (prop c0 "content") = true).
  { destruct (prop c0 "content") as [| |b|q|s|e o|f]; try reflexivity;
      try discriminate.
    cbn [prop] in Hp. destruct (String.eqb "parts" "length"); [discriminate|].
    destruct (index_of_key (String.length s) "parts"); [|discriminate].
    unfold char_at in Hp. destruct (get n s); discriminate. }
  unfold has_candidate_text, andM, get_index.
  repeat (progress
            (rewrite ?bind_ret, ?Hc, ?Hp, ?Htruthy, ?prop_length, ?gt0_length;
             cbn [truthy nullish at_index nth length];
             try rewrite get_prop_defined by (assumption || reflexivity))).
  reflexivity.
Qed.

Lemma candidate_text_value (d c0 p0 : value) (cs ps : list value)
    (own own' : list (string * value)) (s : string) :
  prop d "candidates" = VArr (c0 :: cs) own ->
  prop (prop c0 "content") "parts" = VArr (p0 :: ps) own' ->
  prop p0 "text" = VStr s ->
  candidate_text d = ret (VStr s).
Proof.
  intros Hc Hp Ht.
  assert (Hd : nullish d = false) by (destruct d; try reflexivity; discriminate).
  assert (Hc0 : nullish c0 = false) by (destruct c0; try reflexivity; discriminate).
  assert (Hct : nullish (prop c0 "content") = false)
    by (destruct (prop c0 "content"); try reflexivity; discriminate).
  assert (Hp0 : nullish p0 = false) by (destruct p0; try reflexivity; discriminate).
  unfold candidate_text, get_index.
  repeat (progress
            (rewrite ?bind_ret, ?Hc, ?Hp, ?Ht;
             cbn [nullish at_index nth];
             try rewrite get_prop_defined by (assumption || reflexivity))).
  reflexivity.
Qed.

End GenerationTraces.

Section GenerationClaims.

Import ApiClient.

Variable rt : js_runtime.
Variable net : network.


(** Opens [generateGeminiReply] for each of the valid languages and takes
    the first step of its [try]. *)
Ltac open_generation Hlang :=
  unfold run, generateGeminiReply, generation_request, instruction,
    createGoogleHeaders, axios_post;
  destruct Hlang as [-> | [-> | ->]];
  cbn [String.eqb Ascii.eqb Bool.eqb andb];
  rewrite try_axios; change (requests_so_far []) with 0.


(** With a valid language, [generateGeminiReply] issues exactly one
    request: a POST whose URL carries the key as its query, whose only
    header is the content type, and whose body is one prompt that opens with
    the instruction of the language, quotes the message and always ends with
    the same Indonesian sentence.  After the status 429 the console gets one
    warning, after any other failure one error line. *)
Theorem generation_request_once (userMessage apiKey : string)
    (promptLanguage : option string) :
  promptLanguage = None \/ promptLanguage = Some "id" \/ promptLanguage = Some "en" ->
  let req := generation_request userMessage apiKey promptLanguage in
  let tr := trace (generateGeminiReply rt userMessage apiKey promptLanguage) net in
  (exists log : list event, tr = Http req :: log /\ requests_so_far log = 0) /\
  (answered_429 (net 0 req) ->
   tr = [Http req;
         Console LWarn
           ("[API Warn] Google API key rate limited (429). Key: "
            +:+ js_substring apiKey 0 (Some 5%Z) +:+ "...") []]) /\
  (settled (net 0 req) = None -> ~ answered_429 (net 0 req) ->
   tr = [Http req;
         Console LError "[API Error] Failed to generate Gemini reply:"
           [error_detail (rejection (net 0 req))]]).
Proof.
  intros Hlang. cbv zeta. unfold trace, answered_429, settled, rejection.
  open_generation Hlang.
  all: destruct (net 0 _) as [msg | r];
    [ split; [eexists; split; reflexivity|];
      split; [intros (r & Hr & _); discriminate | reflexivity]
    | destruct (validateStatus (status r)) eqn:Hv;
      [ split;
        [ match goal with
          | |- context [try_catch ?b ?h net ?t] =>
              assert (Hsil : silent (try_catch b h));
              [| destruct (Hsil net t) as (log & Hlog & Hreq);
                 exists log; split; [exact Hlog | exact Hreq] ]
          end;
          apply silent_try_catch;
            [ apply silent_bind; [apply silent_has_candidate_text|];
              intros [|];
              [ apply silent_bind; [apply silent_candidate_text|];
                intros ?; apply silent_call_trim
              | apply silent_bind; [apply silent_console|]; intros _;
                apply silent_bind; [apply silent_get_prop|]; intros ?;
                apply silent_bind; [|intros _; apply silent_ret];
                destruct (truthy _); [apply silent_console | apply silent_ret] ]
            | intros e; destruct (err_response e) as [r'|];
              [destruct (status r' =? 429)%Z|];
              (apply silent_bind; [apply silent_console | intros _; apply silent_ret]) ]
        | pose proof (not_429_when_accepted r Hv) as Hn; apply Z.eqb_neq in Hn;
          split; [|discriminate];
          intros (r' & Hr' & H429); injection Hr' as <-; contradiction ]
      | cbn [err_response];
        destruct (Z.eqb_spec (status r) 429) as [H429 | H429];
        (split; [eexists; split; reflexivity|]);
        (split;
         [ try reflexivity;
           intros (r' & Hr' & Hs); injection Hr' as <-; contradiction
         | try reflexivity; intros _ Hnot; exfalso; apply Hnot; eauto ]) ] ].
Qed.


(** A response whose first candidate has a string as the text of its
    first part gives that text without the white space at its two ends and
    otherwise unchanged, and nothing on the console; a text of white space
    alone gives the empty string, not [null]. *)
Theorem generation_text (userMessage apiKey : string)
    (promptLanguage : option string) (response : http_response)
    (c0 p0 : value) (cs ps : list value) (own own' : list (string * value))
    (s : string) :
  promptLanguage = None \/ promptLanguage = Some "id" \/ promptLanguage = Some "en" ->
  let req := generation_request userMessage apiKey promptLanguage in
  settled (net 0 req) = Some response ->
  prop (data response) "candidates" = VArr (c0 :: cs) own ->
  prop (prop c0 "content") "parts" = VArr (p0 :: ps) own' ->
  prop p0 "text" = VStr s ->
  run (generateGeminiReply rt userMessage apiKey promptLanguage) net
  = (Normal (VStr (js_trim s)), [Http req]) /\
  (exists lead trail : string,
     s = lead +:+ js_trim s +:+ trail /\
     all_space lead = true /\ all_space trail = true /\ tight (js_trim s)) /\
  (all_space s = true ->
   result (generateGeminiReply rt userMessage apiKey promptLanguage) net
   = Normal (VStr EmptyString)).
Proof.
  intros Hlang. cbv zeta. unfold settled, result.
  assert (Hrun :
    match net 0 (generation_request userMessage apiKey promptLanguage) with
    | NoResponse _ => None
    | Responded r => if validateStatus (status r) then Some r else None
    end = Some response ->
    prop (data response) "candidates" = VArr (c0 :: cs) own ->
    prop (prop c0 "content") "parts" = VArr (p0 :: ps) own' ->
    prop p0 "text" = VStr s ->
    run (generateGeminiReply rt userMessage apiKey promptLanguage) net
    = (Normal (VStr (js_trim s)),
       [Http (generation_request userMessage apiKey promptLanguage)])).
  { open_generation Hlang.
    all: destruct (net 0 _) as [msg | r]; [discriminate|];
      destruct (validateStatus (status r)); [|discriminate];
      intros Hs Hc Hp Ht; injection Hs as ->;
      rewrite try_catch_unfold, (has_candidate_text_true rt _ _ _ _ _ _ _ Hc Hp),
        bind_ret, (candidate_text_value _ _ _ _ _ _ _ _ Hc Hp Ht), bind_ret;
      reflexivity. }
  intros Hs Hc Hp Ht. rewrite (Hrun Hs Hc Hp Ht). split; [reflexivity|].
  split; [apply js_trim_spec|].
  intros Hall. now rewrite (js_trim_all_space s Hall).
Qed.


End GenerationClaims.

Section GenerationWitnesses.

Import ApiClient.

(** The theorem for a generation in English that is answered with 429. *)
Lemma generation_request_once_witness :
  trace (generateGeminiReply sample_runtime "gm everyone"
           "AIzaSyD4-first-generation-key-0001" (Some "en")) quota_exceeded
  = [Http (generation_request "gm everyone" "AIzaSyD4-first-generation-key-0001"
             (Some "en"));
     Console LWarn "[API Warn] Google API key rate limited (429). Key: AIzaS..." []].
Proof.
  destruct (generation_request_once sample_runtime quota_exceeded "gm everyone"
              "AIzaSyD4-first-generation-key-0001" (Some "en"))
    as (_ & H & _); [auto|].
  apply H. eexists. split; reflexivity.
Defined.

(** The theorem for a generated text with white space around it. *)
Lemma generation_text_witness :
  result (generateGeminiReply sample_runtime "gm everyone"
            "AIzaSyD4-first-generation-key-0001" None)
    (generated (VStr "  gm, selamat pagi semua  "))
  = Normal (VStr "gm, selamat pagi semua").
Proof.
  unfold result.
  rewrite (proj1 (generation_text sample_runtime
                    (generated (VStr "  gm, selamat pagi semua  "))
                    "gm everyone" "AIzaSyD4-first-generation-key-0001" None
                    _ _ _ _ _ _ _ "  gm, selamat pagi semua  "
                    (or_introl eq_refl) eq_refl eq_refl eq_refl eq_refl)).
  reflexivity.
Defined.


End GenerationWitnesses.

Section SecretsOnConsole.

Import ApiClient.




End SecretsOnConsole.
